(** * Authentication core of the employee API (src/main.py)

    A shallow embedding of the token-based authentication layer:
    [verify_password], [get_user], [authenticate_user],
    [create_access_token], [get_current_user], [get_current_active_user]
    and [login_for_access_token].

    The two third-party libraries the module calls are modelled
    symbolically, in the Dolev-Yao style:
    - a bcrypt hash string is represented by the salt and the secret it was
      computed from (passlib's [CryptContext]);
    - a compact JWS string is represented by its header algorithm, its
      payload and the key under which its signature segment verifies
      (python-jose's [jwt.encode] / [jwt.decode]).
    Time is explicit: every function that reads [datetime.utcnow()] takes
    the clock value as an argument. *)

From Stdlib Require Import PrimFloat Ascii ZifyNat.
From stdpp Require Import gmap strings list sorting.

Local Open Scope string_scope.
Local Open Scope list_scope.
Local Open Scope Z_scope.
#[local] Set Warnings "-clear-no-such-hyp".

(** ** Python values, time *)

(** [datetime] values are microseconds since the epoch (the resolution of
    Python's [datetime]); [timedelta] values are microseconds. *)
Definition datetime := Z.
Definition timedelta := Z.

Definition timedelta_minutes (minutes : Z) : timedelta := minutes * 60 * 1000000.

(** [timegm(d.utctimetuple())]: whole seconds since the epoch, the
    microsecond field is dropped. *)
Definition timegm (d : datetime) : Z := d `div` 1000000.

(** The values a claims dictionary holds in this program. *)
Inductive pyval :=
  | VNone
  | VStr (s : string)
  | VInt (z : Z)
  | VDatetime (d : datetime).

#[global] Instance pyval_eq_dec : EqDecision pyval.
Proof. solve_decision. Defined.

(** ** Exceptions and the two effect layers *)

Inductive jws_error :=
  | MalformedJWS               (* anything [jws._load] rejects *)
  | NoAlgorithm
  | AlgNotAllowed
  | SignatureVerificationFailed.

(** [JWTError] and its subclasses, as raised by [jwt.decode]. *)
Inductive jwt_error :=
  | OfJWSError (e : jws_error)            (* [raise JWTError(e)] *)
  | InvalidPayloadString
  | ExpiredSignatureError
  | JWTClaimsError (msg : string).

Inductive exn :=
  | HTTPException (status_code : Z) (detail : string) (headers : list (string * string))
  | JWSError (e : jws_error)
  | JWTError (e : jwt_error)
  | UnknownHashError            (* passlib: hash could not be identified *)
  | MalformedHashError          (* passlib: bcrypt prefix, unparsable body *)
  | ValidationError.            (* pydantic *)

#[global] Instance jws_error_eq_dec : EqDecision jws_error.
Proof. solve_decision. Defined.
#[global] Instance jwt_error_eq_dec : EqDecision jwt_error.
Proof. solve_decision. Defined.
#[global] Instance exn_eq_dec : EqDecision exn.
Proof. solve_decision. Defined.

(** A call either returns or raises. *)
Inductive outcome (A : Type) :=
  | Return (a : A)
  | Raise (e : exn).
Arguments Return {A} a.
Arguments Raise {A} e.

#[global] Instance outcome_ret : MRet outcome := λ A, Return.
#[global] Instance outcome_bind : MBind outcome := λ A B f m,
  match m with
  | Return a => f a
  | Raise e => Raise e
  end.

(** The checks token validation goes through, in the vocabulary of
    [jwt.decode] and of [get_current_user]. *)
Inductive check :=
  | VerifySignature     (* jws.verify *)
  | DecodePayload       (* json.loads + Mapping test *)
  | ValidateIat
  | ValidateNbf
  | ValidateExp
  | ValidateAud
  | ValidateSub
  | ValidateJti
  | ValidateAtHash
  | SubjectPresent      (* username is None *)
  | BuildTokenData      (* TokenData(username=username) *)
  | LookupSubject       (* get_user / user is None *)
  | CheckDisabled.      (* user.disabled *)

#[global] Instance check_eq_dec : EqDecision check.
Proof. solve_decision. Defined.

Inductive entry :=
  | Passed (c : check)
  | Failed (c : check) (e : exn).

#[global] Instance entry_eq_dec : EqDecision entry.
Proof. solve_decision. Defined.

(** Token validation is run with a ghost log of the checks it evaluates:
    a computation yields the entries it produced and its outcome. *)
Definition traced (A : Type) : Type := list entry * outcome A.

#[global] Instance traced_ret : MRet traced := λ A a, ([], Return a).
#[global] Instance traced_bind : MBind traced := λ A B f m,
  match m with
  | (l, Return a) => let '(l', r) := f a in (l ++ l', r)
  | (l, Raise e) => (l, Raise e)
  end.

(** Evaluate one check: its entry is logged whether it passes or raises. *)
Definition checking {A} (c : check) (m : outcome A) : traced A :=
  match m with
  | Return a => ([Passed c], Return a)
  | Raise e => ([Failed c e], Raise e)
  end.

(** [try: body except JWTError: handler] *)
Definition except_JWTError {A} (body : traced A) (handler : traced A) : traced A :=
  match body with
  | (l, Raise (JWTError _)) => let '(l', r) := handler in (l ++ l', r)
  | _ => body
  end.

Definition raise {A} (e : exn) : traced A := ([], Raise e).

Definition log_of {A} (m : traced A) : list entry := m.1.
Definition result_of {A} (m : traced A) : outcome A := m.2.

(** ** Configuration (main.py, lines 14-16) *)

Definition SECRET_KEY : string := "your-very-secret-key-change-this".
Definition ALGORITHM : string := "HS256".
Definition ACCESS_TOKEN_EXPIRE_MINUTES : Z := 60.

(** ** passlib: [pwd_context = CryptContext(schemes=["bcrypt"])] *)

(** What the bcrypt handler makes of a hash string. The hash is ideal:
    [Bcrypt salt secret] verifies exactly [secret]. *)
Inductive hash_string :=
  | Bcrypt (salt : string) (secret : string)
  | MalformedBcrypt (raw : string)
  | Unidentified (raw : string).

#[global] Instance hash_string_eq_dec : EqDecision hash_string.
Proof. solve_decision. Defined.

(** [pwd_context.hash(secret)]; the salt is drawn by the caller. *)
Definition pwd_context_hash (salt : string) (secret : string) : hash_string :=
  Bcrypt salt secret.

(** [pwd_context.verify(secret, hash)]: identifies the scheme, then lets the
    handler compare. *)
Definition pwd_context_verify (secret : string) (hash : hash_string) : outcome bool :=
  match hash with
  | Bcrypt _ s => Return (bool_decide (secret = s))
  | MalformedBcrypt _ => Raise MalformedHashError
  | Unidentified _ => Raise UnknownHashError
  end.

(** ** Users and the credential store *)

(** class User(BaseModel) *)
Record User := mkUser {
  User_username : string;
  User_disabled : option bool
}.

(** class UserInDB(User) *)
Record UserInDB := mkUserInDB {
  username : string;
  disabled : option bool;
  hashed_password : hash_string
}.

#[global] Instance UserInDB_eq_dec : EqDecision UserInDB.
Proof. solve_decision. Defined.

(** An entry of the user table: the dictionary with the keys ["username"],
    ["hashed_password"] and ["disabled"]. *)
Record user_dict := mkUserDict {
  d_username : string;
  d_hashed_password : hash_string;
  d_disabled : option bool
}.

(** The model object built from the dictionary's fields by keyword
    unpacking. *)
Definition UserInDB_of_dict (d : user_dict) : UserInDB :=
  {| username := d_username d;
     disabled := d_disabled d;
     hashed_password := d_hashed_password d |}.

(** The upcast a handler annotated [current_user: User] has in mind. *)
Definition as_User (u : UserInDB) : User :=
  {| User_username := username u; User_disabled := disabled u |}.

Definition fake_users_db (salt : string) : gmap string user_dict :=
  {[ "admin" := {| d_username := "admin";
                   d_hashed_password := pwd_context_hash salt "secret123";
                   d_disabled := Some false |} ]}.

(** Truth value of an [Optional[bool]]. *)
Definition truthy (b : option bool) : bool :=
  match b with
  | Some true => true
  | _ => false
  end.

(** ** Password check and login lookup (main.py, lines 45-60) *)

Definition verify_password (plain_password : string) (hashed_password : hash_string)
  : outcome bool :=
  pwd_context_verify plain_password hashed_password.

Definition get_user (db : gmap string user_dict) (username : string) : option UserInDB :=
  match db !! username with
  | Some user_dict => Some (UserInDB_of_dict user_dict)
  | None => None
  end.

(** The result [None] stands for Python's [False]. *)
Definition authenticate_user (db : gmap string user_dict) (username password : string)
  : outcome (option UserInDB) :=
  match get_user db username with
  | None => Return None
  | Some user =>
      ok ← verify_password password (hashed_password user);
      if negb ok then Return None else Return (Some user)
  end.

(** ** python-jose: compact JWS tokens *)

(** The payload segment, as [json.loads] sees it. *)
Inductive payload :=
  | NotAClaimsObject (raw : string)     (* not JSON, or JSON but not an object *)
  | ClaimsObject (claims : gmap string pyval).

(** What the library makes of a token string. [signed_with = Some k] says
    that the signature segment is the MAC, under the header's algorithm and
    the key [k], of this very header and payload; the MAC is ideal, so it
    verifies under no other key. *)
Inductive token :=
  | NotJWS (raw : string)
  | JWS (alg : string) (body : payload) (signed_with : option string).

(** [isinstance(v, datetime)] conversion of one time claim in [jwt.encode]. *)
Definition convert_time_claim (time_claim : string) (claims : gmap string pyval)
  : gmap string pyval :=
  match claims !! time_claim with
  | Some (VDatetime d) => <[time_claim := VInt (timegm d)]> claims
  | _ => claims
  end.

(** [jwt.encode(claims, key, algorithm)]: the three time claims are turned
    into integer dates, then the claims are signed. Serialisation of the
    remaining values is not modelled: they are carried unchanged. *)
Definition jwt_encode (claims : gmap string pyval) (key : string) (algorithm : string)
  : token :=
  let claims := foldl (λ c time_claim, convert_time_claim time_claim c)
                      claims ["exp"; "iat"; "nbf"] in
  JWS algorithm (ClaimsObject claims) (Some key).

(** [jws.verify(token, key, algorithms)] *)
Definition jws_verify (token : token) (key : string) (algorithms : list string)
  : outcome payload :=
  match token with
  | NotJWS _ => Raise (JWSError MalformedJWS)
  | JWS alg body signed_with =>
      if bool_decide (alg = "") then Raise (JWSError NoAlgorithm)
      else if negb (bool_decide (alg ∈ algorithms)) then Raise (JWSError AlgNotAllowed)
      else if negb (bool_decide (signed_with = Some key))
           then Raise (JWSError SignatureVerificationFailed)
      else Return body
  end.

Definition json_loads_claims (p : payload) : outcome (gmap string pyval) :=
  match p with
  | ClaimsObject claims => Return claims
  | NotAClaimsObject _ => Raise (JWTError InvalidPayloadString)
  end.

(** The claim validators of [jwt._validate_claims], for the call
    [jwt.decode(token, key, algorithms=[...])]: default options, no leeway,
    [audience], [issuer], [subject] and [access_token] all [None].
    [now] is in whole seconds. A time claim is read as an integer only when
    it is one. *)
Definition validate_iat (claims : gmap string pyval) : outcome unit :=
  match claims !! "iat" with
  | None | Some (VInt _) => Return ()
  | Some _ => Raise (JWTError (JWTClaimsError "Issued At claim (iat) must be an integer."))
  end.

Definition validate_nbf (claims : gmap string pyval) (now : Z) : outcome unit :=
  match claims !! "nbf" with
  | None => Return ()
  | Some (VInt nbf) =>
      if now <? nbf then Raise (JWTError (JWTClaimsError "The token is not yet valid (nbf)"))
      else Return ()
  | Some _ => Raise (JWTError (JWTClaimsError "Not Before claim (nbf) must be an integer."))
  end.

Definition validate_exp (claims : gmap string pyval) (now : Z) : outcome unit :=
  match claims !! "exp" with
  | None => Return ()
  | Some (VInt exp) =>
      if exp <? now then Raise (JWTError ExpiredSignatureError)
      else Return ()
  | Some _ => Raise (JWTError (JWTClaimsError "Expiration Time claim (exp) must be an integer."))
  end.

(** With [audience=None] no audience claim can match. *)
Definition validate_aud (claims : gmap string pyval) : outcome unit :=
  match claims !! "aud" with
  | None => Return ()
  | Some _ => Raise (JWTError (JWTClaimsError "Invalid audience"))
  end.

Definition validate_sub (claims : gmap string pyval) : outcome unit :=
  match claims !! "sub" with
  | None | Some (VStr _) => Return ()
  | Some _ => Raise (JWTError (JWTClaimsError "Subject must be a string."))
  end.

Definition validate_jti (claims : gmap string pyval) : outcome unit :=
  match claims !! "jti" with
  | None | Some (VStr _) => Return ()
  | Some _ => Raise (JWTError (JWTClaimsError "JWT ID must be a string."))
  end.

Definition validate_at_hash (claims : gmap string pyval) : outcome unit :=
  match claims !! "at_hash" with
  | None => Return ()
  | Some _ => Raise (JWTError (JWTClaimsError "No access_token provided to compare against at_hash claim."))
  end.

Definition validate_claims (claims : gmap string pyval) (utcnow : datetime) : traced unit :=
  let now := timegm utcnow in
  _ ← checking ValidateIat (validate_iat claims);
  _ ← checking ValidateNbf (validate_nbf claims now);
  _ ← checking ValidateExp (validate_exp claims now);
  _ ← checking ValidateAud (validate_aud claims);
  _ ← checking ValidateSub (validate_sub claims);
  _ ← checking ValidateJti (validate_jti claims);
  checking ValidateAtHash (validate_at_hash claims).

(** [try: ... except JWSError as e: raise JWTError(e)] *)
Definition JWSError_as_JWTError {A} (r : outcome A) : outcome A :=
  match r with
  | Raise (JWSError e) => Raise (JWTError (OfJWSError e))
  | _ => r
  end.

(** [jwt.decode(token, key, algorithms)]: verify, load the payload,
    validate the claims, return them. A [JWSError] is re-raised as
    [JWTError]. *)
Definition jwt_decode (token : token) (key : string) (algorithms : list string)
    (utcnow : datetime) : traced (gmap string pyval) :=
  payload ← checking VerifySignature
              (JWSError_as_JWTError (jws_verify token key algorithms));
  claims ← checking DecodePayload (json_loads_claims payload);
  _ ← validate_claims claims utcnow;
  mret claims.

(** ** Token issuance (main.py, lines 62-70) *)

(** Truth value of an [Optional[timedelta]]: [None] and the zero duration
    are false. *)
Definition timedelta_truthy (expires_delta : option timedelta) : bool :=
  match expires_delta with
  | Some d => negb (d =? 0)
  | None => false
  end.

Definition create_access_token (data : gmap string pyval)
    (expires_delta : option timedelta) (utcnow : datetime) : token :=
  let to_encode := data in
  let expire :=
    if timedelta_truthy expires_delta
    then utcnow + default 0 expires_delta
    else utcnow + timedelta_minutes 15 in
  let to_encode := <["exp" := VDatetime expire]> to_encode in
  let encoded_jwt := jwt_encode to_encode SECRET_KEY ALGORITHM in
  encoded_jwt.

(** ** Token validation (main.py, lines 72-95) *)

(** class TokenData(BaseModel): username: Optional[str] = None *)
Record TokenData := mkTokenData { td_username : option string }.

Definition TokenData_validate (username : pyval) : outcome TokenData :=
  match username with
  | VNone => Return {| td_username := None |}
  | VStr s => Return {| td_username := Some s |}
  | _ => Raise ValidationError
  end.

(** [payload.get(key)] *)
Definition dict_get (payload : gmap string pyval) (key : string) : pyval :=
  match payload !! key with
  | Some v => v
  | None => VNone
  end.

Definition credentials_exception : exn :=
  HTTPException 401 "Could not validate credentials" [("WWW-Authenticate", "Bearer")].

Definition inactive_user_exception : exn :=
  HTTPException 400 "Inactive user" [].

(** [db] is the value of the module-level user table at the time of the
    call; the service runs with [fake_users_db]. *)
Definition get_current_user (db : gmap string user_dict) (token : token)
    (utcnow : datetime) : traced UserInDB :=
  token_data ←
    except_JWTError
      (payload ← jwt_decode token SECRET_KEY [ALGORITHM] utcnow;
       let username := dict_get payload "sub" in
       _ ← checking SubjectPresent
             (if bool_decide (username = VNone) then Raise credentials_exception
              else Return ());
       checking BuildTokenData (TokenData_validate username))
      (raise credentials_exception);
  user ← checking LookupSubject
           (match td_username token_data ≫= get_user db with
            | None => Raise credentials_exception
            | Some user => Return user
            end);
  _ ← checking CheckDisabled
        (if truthy (disabled user) then Raise inactive_user_exception
         else Return ());
  mret user.

Definition get_current_active_user (current_user : UserInDB) : UserInDB :=
  current_user.

(** What a protected handler receives through
    [Depends(get_current_active_user)]. *)
Definition current_principal (db : gmap string user_dict) (token : token)
    (utcnow : datetime) : outcome UserInDB :=
  current_user ← result_of (get_current_user db token utcnow);
  mret (get_current_active_user current_user).

(** ** Login endpoint (main.py, lines 123-141) *)

(** class Token(BaseModel) *)
Record Token := mkToken {
  access_token : token;
  token_type : string
}.

Definition incorrect_login_exception : exn :=
  HTTPException 401 "Incorrect username or password" [("WWW-Authenticate", "Bearer")].

Definition login_for_access_token (db : gmap string user_dict)
    (form_username form_password : string) (utcnow : datetime) : outcome Token :=
  user ← authenticate_user db form_username form_password;
  match user with
  | None => Raise incorrect_login_exception
  | Some user =>
      let access_token_expires := timedelta_minutes ACCESS_TOKEN_EXPIRE_MINUTES in
      let access_token :=
        create_access_token {[ "sub" := VStr (username user) ]}
                            (Some access_token_expires) utcnow in
      Return {| access_token := access_token; token_type := "bearer" |}
  end.

(** ** Vocabulary of the specification *)

Definition token_claims (t : token) : option (gmap string pyval) :=
  match t with
  | JWS _ (ClaimsObject claims) _ => Some claims
  | _ => None
  end.

(** The claim [key] of a token, when the token has claims and that claim. *)
Definition token_claim (t : token) (key : string) : option pyval :=
  token_claims t ≫= (.!! key).



(** (c) the subject resolves to a stored identity that is not disabled. *)
Definition subject_resolves (db : gmap string user_dict) (t : token) (u : UserInDB) : Prop :=
  ∃ s, token_claim t "sub" = Some (VStr s) ∧ get_user db s = Some u.

(** Validation accepts the token and hands out the principal [u]. *)
Definition accepts (db : gmap string user_dict) (t : token) (utcnow : datetime)
    (u : UserInDB) : Prop :=
  result_of (get_current_user db t utcnow) = Return u.

(** What [jwt.decode] requires of the registered claims, spelled out. *)
Record registered_claims_ok (claims : gmap string pyval) (utcnow : datetime) : Prop := {
  ok_iat : ∀ v, claims !! "iat" = Some v → ∃ i, v = VInt i;
  ok_nbf : ∀ v, claims !! "nbf" = Some v → ∃ nbf, v = VInt nbf ∧ nbf ≤ timegm utcnow;
  ok_exp : ∀ v, claims !! "exp" = Some v → ∃ exp, v = VInt exp ∧ timegm utcnow ≤ exp;
  ok_aud : claims !! "aud" = None;
  ok_sub : ∀ v, claims !! "sub" = Some v → ∃ s, v = VStr s;
  ok_jti : ∀ v, claims !! "jti" = Some v → ∃ s, v = VStr s;
  ok_at_hash : claims !! "at_hash" = None
}.





(** ** Auxiliary definitions of the proofs *)

Definition intdate (v : pyval) : pyval :=
  match v with
  | VDatetime d => VInt (timegm d)
  | _ => v
  end.

Definition lookup_principal (db : gmap string user_dict) (claims : gmap string pyval)
  : outcome UserInDB :=
  match claims !! "sub" with
  | Some (VStr s) =>
      match get_user db s with
      | Some user =>
          if truthy (disabled user) then Raise inactive_user_exception else Return user
      | None => Raise credentials_exception
      end
  | _ => Raise credentials_exception
  end.


(** [m] evaluates the checks [cs] in order and stops at the first one
    that fails: either all of [cs] pass and [m] returns, or a prefix
    passes, the next check fails with some [e], nothing is evaluated
    after it, and [m] raises an exception related to [e] by [Φ]. *)
Definition run_over {A} (Φ : check → exn → exn → Prop) (cs : list check)
    (m : traced A) : Prop :=
  (log_of m = Passed <$> cs ∧ ∃ a, result_of m = Return a) ∨
  (∃ cs1 c cs2 e e',
      cs = cs1 ++ c :: cs2 ∧
      log_of m = (Passed <$> cs1) ++ [Failed c e] ∧
      result_of m = Raise e' ∧ Φ c e e').



(** The time-to-live [create_access_token] gives a token. *)
Definition lifetime (expires_delta : option timedelta) : timedelta :=
  if timedelta_truthy expires_delta then default 0 expires_delta
  else timedelta_minutes 15.

(** The claims of a token issued for the subject [s]. *)
Definition issued_claims (s : string) (expires_delta : option timedelta)
    (utcnow : datetime) : gmap string pyval :=
  foldl (λ c time_claim, convert_time_claim time_claim c)
        (<["exp" := VDatetime (utcnow + lifetime expires_delta)]>
           ({[ "sub" := VStr s ]} : gmap string pyval))
        ["exp"; "iat"; "nbf"].

Definition admin_record (salt : string) : UserInDB :=
  {| username := "admin";
     disabled := Some false;
     hashed_password := pwd_context_hash salt "secret123" |}.

(** A token signed with the service key that names a subject and carries
    no expiry claim: nothing in [jwt.decode] asks for one. *)
Definition token_without_exp : token :=
  JWS "HS256" (ClaimsObject {[ "sub" := VStr "admin" ]}) (Some SECRET_KEY).

(** ** The bearer scheme (main.py, line 19) *)






(** ** The employee models (models.py) *)

(** [datetime.date] *)
Record date := mkDate { year : nat; month : nat; day : nat }.

Definition digit (n : nat) : ascii := ascii_of_nat (48 + n `mod` 10).

(** [str(d)] for a date: [YYYY-MM-DD]. *)
Definition str_date (d : date) : string :=
  String (digit (year d / 1000)) (String (digit (year d / 100))
    (String (digit (year d / 10)) (String (digit (year d))
      (String "-" (String (digit (month d / 10)) (String (digit (month d))
        (String "-" (String (digit (day d / 10)) (String (digit (day d)) ""))))))))).

(** class EmployeeCreate(EmployeeBase) *)
Record EmployeeCreate := mkEmployeeCreate {
  ec_name : string;
  ec_department : string;
  ec_salary : float;
  ec_joining_date : date;
  ec_skills : list string;
  ec_employee_id : string
}.

(** class EmployeeUpdate(BaseModel): every field optional. *)
Record EmployeeUpdate := mkEmployeeUpdate {
  eu_name : option string;
  eu_department : option string;
  eu_salary : option float;
  eu_joining_date : option date;
  eu_skills : option (list string)
}.

(** ** The employees collection *)

(** A document of [db["employees"]] as this service writes it. [doc_id] is
    the [_id] the store assigns, in its string form. *)
Record document := mkDocument {
  doc_id : string;
  doc_employee_id : string;
  doc_name : string;
  doc_department : string;
  doc_salary : float;
  doc_joining_date : string;
  doc_skills : list string
}.

(** The collection is the list of its documents in natural order. *)

(** [find_one({"employee_id": employee_id})] *)
Definition find_one (employee_id : string) (coll : list document) : option document :=
  head (filter (λ d, doc_employee_id d = employee_id) coll).

(** [insert_one(doc)] *)
Definition insert_one (doc : document) (coll : list document) : list document :=
  coll ++ [doc].

(** The fields of a [$set] update, absent ones as [None]. *)
Record update_fields := mkUpdateFields {
  set_name : option string;
  set_department : option string;
  set_salary : option float;
  set_joining_date : option string;
  set_skills : option (list string)
}.

Definition apply_set (s : update_fields) (d : document) : document :=
  {| doc_id := doc_id d;
     doc_employee_id := doc_employee_id d;
     doc_name := default (doc_name d) (set_name s);
     doc_department := default (doc_department d) (set_department s);
     doc_salary := default (doc_salary d) (set_salary s);
     doc_joining_date := default (doc_joining_date d) (set_joining_date s);
     doc_skills := default (doc_skills d) (set_skills s) |}.

(** [update_one({"employee_id": employee_id}, {"$set": s})]: the first
    matching document is updated; the result is [matched_count] and the
    collection afterwards. *)
Fixpoint update_one (employee_id : string) (s : update_fields)
    (coll : list document) : nat * list document :=
  match coll with
  | [] => (0%nat, [])
  | d :: rest =>
      if decide (doc_employee_id d = employee_id) then (1%nat, apply_set s d :: rest)
      else let '(matched_count, rest') := update_one employee_id s rest in
           (matched_count, d :: rest')
  end.

(** [delete_one({"employee_id": employee_id})]: the first matching document
    is removed; the result is [deleted_count] and the collection
    afterwards. *)
Fixpoint delete_one (employee_id : string) (coll : list document)
  : nat * list document :=
  match coll with
  | [] => (0%nat, [])
  | d :: rest =>
      if decide (doc_employee_id d = employee_id) then (1%nat, rest)
      else let '(deleted_count, rest') := delete_one employee_id rest in
           (deleted_count, d :: rest')
  end.

(** [find(query)] for the query [list_employees] builds: no condition, or
    equality on the department. *)
Definition find (query : option string) (coll : list document) : list document :=
  match query with
  | None => coll
  | Some department => filter (λ d, doc_department d = department) coll
  end.

(** [.sort("joining_date", -1)]: descending on the stored string, compared
    byte-wise. The store does not say in which order documents with equal
    dates come out; here they keep their natural order, and nothing proved
    below rests on that choice. *)
Fixpoint insert_desc (d : document) (sorted : list document) : list document :=
  match sorted with
  | [] => [d]
  | e :: rest =>
      if String.ltb (doc_joining_date d) (doc_joining_date e)
      then e :: insert_desc d rest
      else d :: e :: rest
  end.

Definition sort_joining_date_desc (docs : list document) : list document :=
  foldr insert_desc [] docs.

(** ** CRUD endpoints (main.py, lines 107-233) *)

(** The dictionary [employee_helper] returns. *)
Record employee_out := mkEmployeeOut {
  out_id : string;
  out_employee_id : string;
  out_name : string;
  out_department : string;
  out_salary : float;
  out_joining_date : string;
  out_skills : list string
}.

Definition employee_helper (employee : document) : employee_out :=
  {| out_id := doc_id employee;
     out_employee_id := doc_employee_id employee;
     out_name := doc_name employee;
     out_department := doc_department employee;
     out_salary := doc_salary employee;
     out_joining_date := doc_joining_date employee;
     out_skills := doc_skills employee |}.


(** [new_id] is the [_id] the store gives the inserted document. *)
Definition create_employee (employee : EmployeeCreate) (new_id : string)
    (current_user : UserInDB) (coll : list document)
  : outcome string * list document :=
  let existing := find_one (ec_employee_id employee) coll in
  match existing with
  | Some _ => (Raise (HTTPException 400 "Employee ID already exists" []), coll)
  | None =>
      let new_employee :=
        {| doc_id := new_id;
           doc_employee_id := ec_employee_id employee;
           doc_name := ec_name employee;
           doc_department := ec_department employee;
           doc_salary := ec_salary employee;
           doc_joining_date := str_date (ec_joining_date employee);
           doc_skills := ec_skills employee |} in
      (Return "Employee created successfully", insert_one new_employee coll)
  end.

Definition employee_not_found : exn := HTTPException 404 "Employee not found" [].

Definition get_employee (employee_id : string) (coll : list document)
  : outcome employee_out :=
  match find_one employee_id coll with
  | None => Raise employee_not_found
  | Some employee => Return (employee_helper employee)
  end.

(** The comprehension that keeps the fields that are not [None], with the
    joining date turned into its string. *)
Definition update_dict_of (update_data : EmployeeUpdate) : update_fields :=
  {| set_name := eu_name update_data;
     set_department := eu_department update_data;
     set_salary := eu_salary update_data;
     set_joining_date := str_date <$> eu_joining_date update_data;
     set_skills := eu_skills update_data |}.

(** [not update_dict] *)
Definition update_dict_empty (s : update_fields) : bool :=
  match set_name s, set_department s, set_salary s, set_joining_date s, set_skills s with
  | None, None, None, None, None => true
  | _, _, _, _, _ => false
  end.

Definition update_employee (employee_id : string) (update_data : EmployeeUpdate)
    (current_user : UserInDB) (coll : list document)
  : outcome string * list document :=
  let update_dict := update_dict_of update_data in
  if update_dict_empty update_dict
  then (Raise (HTTPException 400 "No fields to update" []), coll)
  else
    let '(matched_count, coll') := update_one employee_id update_dict coll in
    if (matched_count =? 0)%nat then (Raise employee_not_found, coll')
    else (Return "Employee updated successfully", coll').

Definition delete_employee (employee_id : string)
    (current_user : UserInDB) (coll : list document)
  : outcome string * list document :=
  let '(deleted_count, coll') := delete_one employee_id coll in
  if (deleted_count =? 0)%nat then (Raise employee_not_found, coll')
  else (Return "Employee deleted successfully", coll').

(** Truth value of an [Optional[str]]. *)
Definition str_truthy (s : option string) : bool :=
  match s with
  | None | Some "" => false
  | Some _ => true
  end.

(** [page] and [size] are declared [Query(.., ge=1)]: the handler only ever
    sees positive integers. *)
Definition list_employees (department : option string) (page size : positive)
    (coll : list document) : list employee_out :=
  let query := if str_truthy department then department else None in
  let skip := ((Pos.to_nat page - 1) * Pos.to_nat size)%nat in
  let cursor :=
    take (Pos.to_nat size) (drop skip (sort_joining_date_desc (find query coll))) in
  employee_helper <$> cursor.

(** ** The route table, in the order of the decorators *)

Inductive http_method := GET | POST | PUT | DELETE.

Inductive endpoint :=
  | Ep_login_for_access_token
  | Ep_create_employee
  | Ep_get_employee
  | Ep_update_employee
  | Ep_delete_employee
  | Ep_list_employees
  | Ep_average_salary
  | Ep_search_employees
  | Ep_root.

(** A path template is a list of segments; a request path is the list of
    its segments between the slashes. *)
Inductive segment :=
  | Lit (s : string)
  | Param (name : string).

#[global] Instance http_method_eq_dec : EqDecision http_method.
Proof. solve_decision. Defined.
#[global] Instance endpoint_eq_dec : EqDecision endpoint.
Proof. solve_decision. Defined.

Definition routes : list (http_method * list segment * endpoint) :=
  [ (POST, [Lit "token"], Ep_login_for_access_token);
    (POST, [Lit "employees"], Ep_create_employee);
    (GET, [Lit "employees"; Param "employee_id"], Ep_get_employee);
    (PUT, [Lit "employees"; Param "employee_id"], Ep_update_employee);
    (DELETE, [Lit "employees"; Param "employee_id"], Ep_delete_employee);
    (GET, [Lit "employees"], Ep_list_employees);
    (GET, [Lit "employees"; Lit "avg-salary"], Ep_average_salary);
    (GET, [Lit "employees"; Lit "search"], Ep_search_employees);
    (GET, [], Ep_root) ].

(** A literal segment matches itself; a path parameter matches any
    non-empty segment and binds it. *)
Fixpoint match_path (template : list segment) (path : list string)
  : option (list (string * string)) :=
  match template, path with
  | [], [] => Some []
  | Lit s :: template', p :: path' =>
      if decide (s = p) then match_path template' path' else None
  | Param name :: template', p :: path' =>
      if decide (p = "") then None
      else (λ params, (name, p) :: params) <$> match_path template' path'
  | _, _ => None
  end.

(** The router hands a request to the first route, in declaration order,
    whose method and path both match. *)
Fixpoint first_match (table : list (http_method * list segment * endpoint))
    (method : http_method) (path : list string)
  : option (endpoint * list (string * string)) :=
  match table with
  | [] => None
  | (m, template, ep) :: table' =>
      match (if decide (m = method) then match_path template path else None) with
      | Some params => Some (ep, params)
      | None => first_match table' method path
      end
  end.

Definition dispatch (method : http_method) (path : list string)
  : option (endpoint * list (string * string)) :=
  first_match routes method path.

(** A user table is keyed consistently when every entry is stored under
    its own username. *)
Definition keyed_by_username (db : gmap string user_dict) : Prop :=
  ∀ k d, db !! k = Some d → d_username d = k.

(** The employee ids of a collection. *)
Definition employee_ids (coll : list document) : list string :=
  doc_employee_id <$> coll.

(** ** Data of the examples *)

(** A user table with one disabled user. *)
Definition disabled_table : gmap string user_dict :=
  {[ "eve" := {| d_username := "eve";
                 d_hashed_password := pwd_context_hash "salt" "pw";
                 d_disabled := Some true |} ]}.

(** The example employee of models.py. *)
Definition john_doe : EmployeeCreate :=
  {| ec_name := "John Doe"; ec_department := "Engineering";
     ec_salary := 75000%float;
     ec_joining_date := {| year := 2023; month := 1; day := 15 |};
     ec_skills := ["Python"; "MongoDB"; "APIs"]; ec_employee_id := "E123" |}.

(** The document [create_employee] stores for it. *)
Definition john_doe_document : document :=
  {| doc_id := "65a0"; doc_employee_id := "E123"; doc_name := "John Doe";
     doc_department := "Engineering"; doc_salary := 75000%float;
     doc_joining_date := "2023-01-15";
     doc_skills := ["Python"; "MongoDB"; "APIs"] |}.

(** ** Order of the sort key and paging *)

(** [a] does not sort before [b]: the order a descending sort leaves
    between an element and a later one. *)
Definition no_earlier (a b : string) : Prop := String.ltb a b = false.


(** The values a [datetime.date] can take: years 1 to 9999, a month and a
    day of the calendar (the length of the month plays no part here). *)
Definition date_in_range (d : date) : Prop :=
  1 ≤ Z.of_nat (year d) ≤ 9999 ∧ (1 ≤ month d ≤ 12)%nat ∧ (1 ≤ day d ≤ 31)%nat.

(** [a < b] on dates. *)
Definition date_lt (a b : date) : Prop :=
  (year a < year b)%nat ∨
  (year a = year b ∧
   ((month a < month b)%nat ∨ (month a = month b ∧ (day a < day b)%nat))).

(** * Lemmas *)

(** ** Erasing the log *)

Lemma result_of_bind {A B} (m : traced A) (f : A → traced B) :
  result_of (m ≫= f) = result_of m ≫= (λ a, result_of (f a)).
Proof.
  destruct m as [l [a|e]]; simpl; [|done].
  unfold result_of. by destruct (f a).
Qed.


Lemma result_of_checking {A} c (m : outcome A) : result_of (checking c m) = m.
Proof. by destruct m. Qed.

Lemma result_of_except {A} (body handler : traced A) :
  result_of (except_JWTError body handler) =
  match result_of body with
  | Raise (JWTError _) => result_of handler
  | r => r
  end.
Proof.
  destruct body as [l [a|[]]]; simpl; try done.
  unfold result_of. by destruct handler.
Qed.

Lemma outcome_bind_Return {A B} (m : outcome A) (f : A → outcome B) b :
  m ≫= f = Return b ↔ ∃ a, m = Return a ∧ f a = Return b.
Proof.
  destruct m; simpl; split; try naive_solver.
Qed.

(** ** The time claims of an issued token *)


Lemma lookup_convert_time_claim tc (claims : gmap string pyval) k :
  convert_time_claim tc claims !! k =
  if decide (k = tc) then intdate <$> claims !! k else claims !! k.
Proof.
  unfold convert_time_claim. case_decide as Hk.
  - subst k. destruct (claims !! tc) as [[]|] eqn:E; simpl; rewrite ?E; try done.
    by rewrite lookup_insert_eq.
  - destruct (claims !! tc) as [[]|] eqn:E; try done.
    by rewrite lookup_insert_ne.
Qed.

Lemma token_claim_jwt_encode (claims : gmap string pyval) key alg k :
  token_claim (jwt_encode claims key alg) k =
  if decide (k ∈ ["exp"; "iat"; "nbf"]) then intdate <$> claims !! k else claims !! k.
Proof.
  unfold token_claim, jwt_encode; simpl.
  rewrite !lookup_convert_time_claim.
  repeat case_decide; try done; subst;
    try (exfalso; set_unfold; naive_solver);
    try (by destruct (claims !! _) as [[]|]).
Qed.

Lemma token_claim_create_access_token data expires_delta utcnow k :
  token_claim (create_access_token data expires_delta utcnow) k =
  if decide (k = "exp")
  then Some (VInt (timegm (if timedelta_truthy expires_delta
                           then utcnow + default 0 expires_delta
                           else utcnow + timedelta_minutes 15)))
  else if decide (k ∈ ["iat"; "nbf"]) then intdate <$> data !! k else data !! k.
Proof.
  unfold create_access_token. rewrite token_claim_jwt_encode.
  destruct (decide (k = "exp")) as [->|Hk].
  - rewrite decide_True by constructor.
    by rewrite lookup_insert_eq.
  - rewrite lookup_insert_ne by done.
    repeat case_decide; try done; exfalso; set_unfold; naive_solver.
Qed.

(** ** What [jwt.decode] returns and raises *)

Lemma bind_Return {A B} (a : A) (f : A → outcome B) : Return a ≫= f = f a.
Proof. done. Qed.

Lemma bind_Raise {A B} e (f : A → outcome B) : Raise e ≫= f = Raise e.
Proof. done. Qed.

Lemma result_of_mret {A} (a : A) : result_of (mret a : traced A) = Return a.
Proof. done. Qed.

Lemma bind_unit_Return (m k : outcome unit) :
  (m ≫= λ _, k) = Return () ↔ m = Return () ∧ k = Return ().
Proof. destruct m as [[]|]; simpl; naive_solver. Qed.

Lemma bind_unit_Raise (m k : outcome unit) e :
  (m ≫= λ _, k) = Raise e → m = Raise e ∨ k = Raise e.
Proof. destruct m as [[]|]; simpl; naive_solver. Qed.

Lemma validate_iat_Return claims :
  validate_iat claims = Return () ↔ ∀ v, claims !! "iat" = Some v → ∃ i, v = VInt i.
Proof.
  unfold validate_iat. destruct (claims !! "iat") as [[]|]; naive_solver.
Qed.

Lemma validate_nbf_Return claims now :
  validate_nbf claims now = Return () ↔
  ∀ v, claims !! "nbf" = Some v → ∃ nbf, v = VInt nbf ∧ nbf ≤ now.
Proof.
  unfold validate_nbf. destruct (claims !! "nbf") as [[| |nbf|]|]; try naive_solver.
  destruct (Z.ltb_spec now nbf); split; try done.
  - intros H'. destruct (H' _ eq_refl) as (? & [= <-] & ?). lia.
  - intros _ v [= <-]. exists nbf. split; [done|lia].
Qed.

Lemma validate_exp_Return claims now :
  validate_exp claims now = Return () ↔
  ∀ v, claims !! "exp" = Some v → ∃ exp, v = VInt exp ∧ now ≤ exp.
Proof.
  unfold validate_exp. destruct (claims !! "exp") as [[| |exp|]|]; try naive_solver.
  destruct (Z.ltb_spec exp now); split; try done.
  - intros H'. destruct (H' _ eq_refl) as (? & [= <-] & ?). lia.
  - intros _ v [= <-]. exists exp. split; [done|lia].
Qed.

Lemma validate_aud_Return claims :
  validate_aud claims = Return () ↔ claims !! "aud" = None.
Proof. unfold validate_aud. destruct (claims !! "aud"); naive_solver. Qed.

Lemma validate_sub_Return claims :
  validate_sub claims = Return () ↔ ∀ v, claims !! "sub" = Some v → ∃ s, v = VStr s.
Proof.
  unfold validate_sub. destruct (claims !! "sub") as [[]|]; naive_solver.
Qed.

Lemma validate_jti_Return claims :
  validate_jti claims = Return () ↔ ∀ v, claims !! "jti" = Some v → ∃ s, v = VStr s.
Proof.
  unfold validate_jti. destruct (claims !! "jti") as [[]|]; naive_solver.
Qed.

Lemma validate_at_hash_Return claims :
  validate_at_hash claims = Return () ↔ claims !! "at_hash" = None.
Proof. unfold validate_at_hash. destruct (claims !! "at_hash"); naive_solver. Qed.

Lemma validate_claims_result claims utcnow :
  result_of (validate_claims claims utcnow) =
  (_ ← validate_iat claims;
   _ ← validate_nbf claims (timegm utcnow);
   _ ← validate_exp claims (timegm utcnow);
   _ ← validate_aud claims;
   _ ← validate_sub claims;
   _ ← validate_jti claims;
   validate_at_hash claims).
Proof.
  unfold validate_claims.
  repeat (rewrite result_of_bind, result_of_checking;
          match goal with
          | |- ?m ≫= _ = _ => destruct m as [[]|]; [rewrite !bind_Return|done]
          end).
  rewrite result_of_bind, !result_of_checking.
  by destruct (validate_jti claims) as [[]|].
Qed.

Lemma validate_claims_Return claims utcnow :
  result_of (validate_claims claims utcnow) = Return () ↔
  registered_claims_ok claims utcnow.
Proof.
  rewrite validate_claims_result, !bind_unit_Return.
  rewrite validate_iat_Return, validate_nbf_Return, validate_exp_Return,
    validate_aud_Return, validate_sub_Return, validate_jti_Return,
    validate_at_hash_Return.
  split; [intros (? & ? & ? & ? & ? & ? & ?); by split|by intros []].
Qed.

Lemma validator_Raise claims now e :
  validate_iat claims = Raise e ∨ validate_nbf claims now = Raise e ∨
  validate_exp claims now = Raise e ∨ validate_aud claims = Raise e ∨
  validate_sub claims = Raise e ∨ validate_jti claims = Raise e ∨
  validate_at_hash claims = Raise e →
  ∃ j, e = JWTError j.
Proof.
  unfold validate_iat, validate_nbf, validate_exp, validate_aud,
    validate_sub, validate_jti, validate_at_hash.
  intros [H|[H|[H|[H|[H|[H|H]]]]]]; revert H;
    repeat case_match; try done; intros [= <-]; eauto.
Qed.

Lemma validate_claims_Raise claims utcnow e :
  result_of (validate_claims claims utcnow) = Raise e → ∃ j, e = JWTError j.
Proof.
  rewrite validate_claims_result. intros H.
  apply (validator_Raise claims (timegm utcnow)).
  repeat (apply bind_unit_Raise in H as [H|H]; [by eauto 10|]). by eauto 10.
Qed.

Ltac erase :=
  repeat first
    [ rewrite result_of_bind | rewrite result_of_checking
    | rewrite result_of_except | rewrite result_of_mret
    | rewrite bind_Return | rewrite bind_Raise ].

Lemma jws_verify_Return token key algorithms body :
  jws_verify token key algorithms = Return body ↔
  ∃ alg, token = JWS alg body (Some key) ∧ alg ≠ "" ∧ alg ∈ algorithms.
Proof.
  destruct token as [raw|alg body' signed_with]; simpl.
  { split; [done|]. by intros (? & ? & _). }
  repeat case_bool_decide; simpl.
  all: try (split; [done|]; intros (? & ? & ? & ?); by simplify_eq).
  split.
  - intros [= <-]. subst. by exists alg.
  - by intros (? & [= -> -> _] & _).
Qed.

Lemma jws_verify_Raise token key algorithms e :
  jws_verify token key algorithms = Raise e → ∃ j, e = JWSError j.
Proof.
  destruct token as [raw|alg body' signed_with]; simpl.
  { intros [= <-]. eauto. }
  repeat case_bool_decide; simpl; try done; intros [= <-]; eauto.
Qed.

Lemma jwt_decode_result token key algorithms utcnow :
  result_of (jwt_decode token key algorithms utcnow) =
  (payload ← JWSError_as_JWTError (jws_verify token key algorithms);
   claims ← json_loads_claims payload;
   _ ← result_of (validate_claims claims utcnow);
   Return claims).
Proof.
  unfold jwt_decode. erase.
  destruct (JWSError_as_JWTError _) as [payload|e]; erase; [|done].
  destruct (json_loads_claims payload) as [claims|e]; erase; [|done].
  by destruct (result_of (validate_claims claims utcnow)) as [[]|e].
Qed.

Lemma jwt_decode_Return token key algorithms utcnow claims :
  result_of (jwt_decode token key algorithms utcnow) = Return claims ↔
  ∃ alg, token = JWS alg (ClaimsObject claims) (Some key) ∧
         alg ≠ "" ∧ alg ∈ algorithms ∧ registered_claims_ok claims utcnow.
Proof.
  rewrite jwt_decode_result.
  destruct (jws_verify token key algorithms) as [body|e] eqn:Hv.
  - apply jws_verify_Return in Hv as (alg & -> & ? & ?).
    cbn [JWSError_as_JWTError]. rewrite bind_Return.
    destruct body as [raw|c]; cbn [json_loads_claims]; erase.
    { split; [done|]. by intros (? & ? & _). }
    destruct (result_of (validate_claims c utcnow)) as [[]|e'] eqn:Hc; erase.
    + apply validate_claims_Return in Hc. split.
      * intros [= <-]. by exists alg.
      * by intros (? & [= -> <-] & _).
    + split; [done|]. intros (? & [= -> <-] & _ & _ & Hok).
      apply validate_claims_Return in Hok. congruence.
  - split.
    + apply jws_verify_Raise in Hv as [j ->]. done.
    + intros (alg & -> & ? & ? & _).
      assert (jws_verify (JWS alg (ClaimsObject claims) (Some key)) key algorithms
              = Return (ClaimsObject claims)) as Heq
        by (apply jws_verify_Return; eauto).
      congruence.
Qed.

Lemma jwt_decode_Raise token key algorithms utcnow e :
  result_of (jwt_decode token key algorithms utcnow) = Raise e → ∃ j, e = JWTError j.
Proof.
  rewrite jwt_decode_result.
  destruct (jws_verify token key algorithms) as [body|e'] eqn:Hv.
  - cbn [JWSError_as_JWTError]. rewrite bind_Return.
    destruct body as [raw|c]; cbn [json_loads_claims]; erase.
    { intros [= <-]. eauto. }
    destruct (result_of (validate_claims c utcnow)) as [[]|e''] eqn:Hc; erase; [done|].
    intros [= <-]. by eapply validate_claims_Raise.
  - apply jws_verify_Raise in Hv as [j ->]. cbn [JWSError_as_JWTError]. erase.
    intros [= <-]. eauto.
Qed.

(** ** The result of [get_current_user], without its log *)


Lemma get_current_user_result db token utcnow :
  result_of (get_current_user db token utcnow) =
  match result_of (jwt_decode token SECRET_KEY [ALGORITHM] utcnow) with
  | Return claims => lookup_principal db claims
  | Raise _ => Raise credentials_exception
  end.
Proof.
  unfold get_current_user. erase.
  destruct (result_of (jwt_decode _ _ _ _)) as [claims|e] eqn:Hd; erase.
  - pose proof Hd as Hd'. apply jwt_decode_Return in Hd' as (alg & _ & _ & _ & Hok).
    unfold lookup_principal, dict_get.
    destruct (claims !! "sub") as [v|] eqn:Hsub;
      [|rewrite bool_decide_true by done; by erase].
    destruct (ok_sub _ _ Hok v Hsub) as [s ->].
    rewrite bool_decide_false by done. erase.
    cbn [TokenData_validate]. erase. cbn [td_username mbind option_bind].
    destruct (get_user db s) as [user|]; erase; [|done].
    by destruct (truthy (disabled user)); erase.
  - apply jwt_decode_Raise in Hd as [j ->]. done.
Qed.

(** ** Runs that stop at the first failing check *)


Section runs.
Context {A : Type}.




Lemma run_over_mono (Φ Ψ : check → exn → exn → Prop) cs (m : traced A) :
  (∀ c e e', Φ c e e' → Ψ c e e') →
  run_over Φ cs m → run_over Ψ cs m.
Proof.
  intros HΦ [?|(cs1 & c & cs2 & e & e' & ? & ? & ? & ?)]; [by left|right].
  exists cs1, c, cs2, e, e'. split_and!; try done. by apply HΦ.
Qed.

End runs.








(** ** Acceptance and rejection, characterised *)

Lemma truthy_false (b : option bool) : truthy b = false ↔ b ≠ Some true.
Proof. destruct b as [[]|]; simpl; split; congruence. Qed.

Lemma lookup_principal_Return db claims u :
  lookup_principal db claims = Return u ↔
  ∃ s, claims !! "sub" = Some (VStr s) ∧ get_user db s = Some u ∧ disabled u ≠ Some true.
Proof.
  unfold lookup_principal. split.
  - repeat case_match; try done. intros [= <-]. eexists. split_and!; try done.
    by apply truthy_false.
  - intros (s & -> & -> & Hd). apply truthy_false in Hd. by rewrite Hd.
Qed.


Lemma accepts_iff db token utcnow u :
  accepts db token utcnow u ↔
  ∃ claims,
    token = JWS ALGORITHM (ClaimsObject claims) (Some SECRET_KEY) ∧
    registered_claims_ok claims utcnow ∧
    subject_resolves db token u ∧
    disabled u ≠ Some true.
Proof.
  unfold accepts, subject_resolves, token_claim.
  rewrite get_current_user_result. split.
  - destruct (result_of (jwt_decode _ _ _ _)) as [claims|e] eqn:Hd; [|done].
    apply jwt_decode_Return in Hd as (alg & -> & _ & Halg & Hok).
    apply list_elem_of_singleton in Halg as ->.
    intros (s & ? & ? & ?)%lookup_principal_Return.
    exists claims. split_and!; try done. by exists s.
  - intros (claims & -> & Hok & (s & Hsub & Hu) & Hd).
    assert (result_of (jwt_decode (JWS ALGORITHM (ClaimsObject claims) (Some SECRET_KEY))
                         SECRET_KEY [ALGORITHM] utcnow) = Return claims) as ->.
    { apply jwt_decode_Return. exists ALGORITHM. split_and!; try done.
      by apply list_elem_of_singleton. }
    apply lookup_principal_Return. exists s. simpl in Hsub. by split_and!.
Qed.



Lemma timegm_mono (a b : datetime) : a ≤ b → timegm a ≤ timegm b.
Proof. intros. unfold timegm. by apply Z.div_le_mono. Qed.


Lemma create_access_token_issued s expires_delta utcnow :
  create_access_token {[ "sub" := VStr s ]} expires_delta utcnow =
  JWS ALGORITHM (ClaimsObject (issued_claims s expires_delta utcnow)) (Some SECRET_KEY).
Proof.
  unfold create_access_token, jwt_encode, issued_claims, lifetime.
  by destruct (timedelta_truthy expires_delta).
Qed.

Lemma issued_claims_lookup s expires_delta utcnow k :
  issued_claims s expires_delta utcnow !! k =
  if decide (k = "exp") then Some (VInt (timegm (utcnow + lifetime expires_delta)))
  else if decide (k = "sub") then Some (VStr s)
  else None.
Proof.
  pose proof (token_claim_create_access_token {[ "sub" := VStr s ]}
                expires_delta utcnow k) as Hk.
  rewrite create_access_token_issued in Hk.
  unfold token_claim, token_claims in Hk. cbn [mbind option_bind] in Hk.
  rewrite Hk. unfold lifetime.
  destruct (decide (k = "exp")) as [->|?]; [done|].
  destruct (decide (k = "sub")) as [->|?].
  - rewrite decide_False by (set_unfold; naive_solver).
    by rewrite lookup_singleton_eq.
  - rewrite lookup_singleton_ne by done. by case_decide.
Qed.

Ltac issued_lookup :=
  rewrite issued_claims_lookup;
  repeat first [rewrite decide_True by done | rewrite decide_False by done].

Lemma issued_claims_ok (s : string) expires_delta utcnow now' :
  timegm now' ≤ timegm (utcnow + lifetime expires_delta) →
  registered_claims_ok (issued_claims s expires_delta utcnow) now'.
Proof.
  intros Hle. split; try (intros v); issued_lookup; try done.
  - intros [= <-]. eauto.
  - intros [= <-]. eauto.
Qed.

Lemma issued_token_accepts db (s : string) u expires_delta utcnow now' :
  get_user db s = Some u →
  disabled u ≠ Some true →
  timegm now' ≤ timegm (utcnow + lifetime expires_delta) →
  accepts db (create_access_token {[ "sub" := VStr s ]} expires_delta utcnow) now' u.
Proof.
  intros Hu Hd Hle.
  apply accepts_iff. exists (issued_claims s expires_delta utcnow).
  rewrite create_access_token_issued.
  split_and!; try done; [by apply issued_claims_ok|].
  exists s. split; [|done].
  unfold token_claim, token_claims. cbn [mbind option_bind]. by issued_lookup.
Qed.




(** * The claims *)







(** C4 (as stated, refuted): with no [expires_delta] the embedded expiry is
    not the current time plus [ACCESS_TOKEN_EXPIRE_MINUTES]. Issued at
    time 0, the token expires at second 900, not at second 3600. *)
Lemma C4_default_expiry_is_not_the_configured_constant :
  token_claim (create_access_token {[ "sub" := VStr "admin" ]} None 0) "exp"
    = Some (VInt 900) ∧
  timegm (0 + timedelta_minutes ACCESS_TOKEN_EXPIRE_MINUTES) = 3600 ∧
  token_claim (create_access_token {[ "sub" := VStr "admin" ]} None 0) "exp"
    ≠ Some (VInt (timegm (0 + timedelta_minutes ACCESS_TOKEN_EXPIRE_MINUTES))).
Proof. split_and!; by vm_compute. Qed.

(** C4 (amended): with no [expires_delta] the embedded expiry is the
    current time plus a literal 15 minutes, in whole seconds, whatever the
    data; the constant [ACCESS_TOKEN_EXPIRE_MINUTES] reaches a token only
    where the login endpoint passes it explicitly. *)
Theorem C4_default_expiry_is_fifteen_minutes :
  (∀ data utcnow,
     token_claim (create_access_token data None utcnow) "exp"
       = Some (VInt (timegm (utcnow + timedelta_minutes 15)))) ∧
  (∀ db uname password utcnow response,
     login_for_access_token db uname password utcnow = Return response →
     token_claim (access_token response) "exp"
       = Some (VInt (timegm (utcnow + timedelta_minutes ACCESS_TOKEN_EXPIRE_MINUTES)))).
Proof.
  split.
  - intros. rewrite token_claim_create_access_token. by rewrite decide_True.
  - intros db uname password utcnow response. unfold login_for_access_token.
    destruct (authenticate_user db uname password) as [[user|]|]; try done.
    rewrite bind_Return. intros [= <-]. cbn [access_token].
    rewrite token_claim_create_access_token. by rewrite decide_True.
Qed.

Lemma C4_witness :
  token_claim (create_access_token {[ "sub" := VStr "admin" ]} None 0) "exp"
    = Some (VInt (timegm (0 + timedelta_minutes 15))) ∧
  token_claim
    (create_access_token {[ "sub" := VStr "admin" ]}
       (Some (timedelta_minutes ACCESS_TOKEN_EXPIRE_MINUTES)) 0) "exp"
    = Some (VInt (timegm (0 + timedelta_minutes ACCESS_TOKEN_EXPIRE_MINUTES))).
Proof.
  split.
  - apply (proj1 C4_default_expiry_is_fifteen_minutes).
  - apply (proj2 C4_default_expiry_is_fifteen_minutes
             (fake_users_db "salt") "admin" "secret123" 0
             {| access_token :=
                  create_access_token {[ "sub" := VStr "admin" ]}
                    (Some (timedelta_minutes ACCESS_TOKEN_EXPIRE_MINUTES)) 0;
                token_type := "bearer" |}).
    reflexivity.
Defined.







(** The log and the result of validating a correctly signed token whose
    expiry lies before the current second. *)
Lemma expired_token_run db claims exp utcnow :
  claims !! "iat" = None →
  claims !! "nbf" = None →
  claims !! "exp" = Some (VInt exp) →
  exp < timegm utcnow →
  get_current_user db (JWS ALGORITHM (ClaimsObject claims) (Some SECRET_KEY)) utcnow =
  ([Passed VerifySignature; Passed DecodePayload; Passed ValidateIat;
    Passed ValidateNbf; Failed ValidateExp (JWTError ExpiredSignatureError)],
   Raise credentials_exception).
Proof.
  intros Hiat Hnbf Hexp Hlt.
  unfold get_current_user, jwt_decode.
  assert (jws_verify (JWS ALGORITHM (ClaimsObject claims) (Some SECRET_KEY))
            SECRET_KEY [ALGORITHM] = Return (ClaimsObject claims)) as ->.
  { apply jws_verify_Return. exists ALGORITHM. split_and!; try done.
    by apply list_elem_of_singleton. }
  cbn [JWSError_as_JWTError checking mbind traced_bind json_loads_claims].
  unfold validate_claims, validate_iat, validate_nbf, validate_exp.
  rewrite Hiat, Hnbf, Hexp.
  apply Z.ltb_lt in Hlt. rewrite Hlt. reflexivity.
Qed.

(** C8 (as stated, refuted): a token issued with a zero time-to-live is
    still accepted one second after issuance, that is, strictly after
    issuance time plus its time-to-live. *)
Lemma C8_zero_ttl_token_outlives_its_ttl :
  0 + 0 < 1000000 ∧
  accepts (fake_users_db "salt")
    (create_access_token {[ "sub" := VStr "admin" ]} (Some 0) 0)
    1000000 (admin_record "salt").
Proof. split; by vm_compute. Qed.

(** C8 (amended): a token issued with a non-zero time-to-live [ttl] for a
    stored, enabled subject validates at every time strictly before
    issuance plus [ttl]; from one full second after issuance plus [ttl]
    on, validation stops at the expiry check with the library's
    expired-signature error, which the client sees as the generic 401. *)
Theorem C8_expiry_window db s u ttl utcnow now' :
  get_user db s = Some u →
  disabled u ≠ Some true →
  ttl ≠ 0 →
  (now' < utcnow + ttl →
   accepts db (create_access_token {[ "sub" := VStr s ]} (Some ttl) utcnow) now' u) ∧
  (utcnow + ttl + 1000000 ≤ now' →
   get_current_user db
     (create_access_token {[ "sub" := VStr s ]} (Some ttl) utcnow) now' =
   ([Passed VerifySignature; Passed DecodePayload; Passed ValidateIat;
     Passed ValidateNbf; Failed ValidateExp (JWTError ExpiredSignatureError)],
    Raise credentials_exception)).
Proof.
  intros Hu Hd Httl.
  assert (lifetime (Some ttl) = ttl) as Hlife.
  { unfold lifetime, timedelta_truthy. by rewrite (proj2 (Z.eqb_neq ttl 0)). }
  split.
  - intros Hlt. apply issued_token_accepts; try done.
    rewrite Hlife. apply timegm_mono. lia.
  - intros Hge. rewrite create_access_token_issued.
    eapply expired_token_run; try by issued_lookup.
    rewrite Hlife. unfold timegm.
    apply Z.div_lt_upper_bound; [lia|].
    pose proof (Z.mul_div_le now' 1000000 ltac:(lia)).
    pose proof (Z.mod_pos_bound now' 1000000 ltac:(lia)).
    pose proof (Z.div_mod now' 1000000 ltac:(lia)).
    pose proof (Z.div_mod (utcnow + ttl) 1000000 ltac:(lia)).
    pose proof (Z.mod_pos_bound (utcnow + ttl) 1000000 ltac:(lia)).
    nia.
Qed.

Lemma C8_witness :
  accepts (fake_users_db "salt")
    (create_access_token {[ "sub" := VStr "admin" ]} (Some (timedelta_minutes 60)) 0)
    3599999999 (admin_record "salt") ∧
  get_current_user (fake_users_db "salt")
    (create_access_token {[ "sub" := VStr "admin" ]} (Some (timedelta_minutes 60)) 0)
    3601000000 =
  ([Passed VerifySignature; Passed DecodePayload; Passed ValidateIat;
    Passed ValidateNbf; Failed ValidateExp (JWTError ExpiredSignatureError)],
   Raise credentials_exception).
Proof.
  split.
  - apply (C8_expiry_window (fake_users_db "salt") "admin" (admin_record "salt")
             (timedelta_minutes 60) 0 3599999999); by vm_compute.
  - apply (C8_expiry_window (fake_users_db "salt") "admin" (admin_record "salt")
             (timedelta_minutes 60) 0 3601000000); by vm_compute.
Defined.

(** C9 (as stated, refuted): the principal a protected handler receives
    for a token issued to the stored user carries that user's password
    hash, and so differs between two user tables that differ in nothing
    but the hash. *)
Lemma C9_principal_carries_the_password_hash :
  current_principal (fake_users_db "salt")
    (create_access_token {[ "sub" := VStr "admin" ]} (Some (timedelta_minutes 60)) 0) 0
    = Return (admin_record "salt") ∧
  hashed_password (admin_record "salt") = pwd_context_hash "salt" "secret123" ∧
  current_principal (fake_users_db "salt")
    (create_access_token {[ "sub" := VStr "admin" ]} (Some (timedelta_minutes 60)) 0) 0
    ≠ current_principal (fake_users_db "pepper")
        (create_access_token {[ "sub" := VStr "admin" ]} (Some (timedelta_minutes 60)) 0) 0.
Proof. split_and!; by vm_compute. Qed.

(** C9 (amended): the principal that successful validation hands to a
    protected handler is the stored record of the token's subject, as
    [get_user] builds it: the username, the disabled flag and the hashed
    password of the user table's entry; [get_current_active_user] passes
    it on unchanged. *)
Theorem C9_principal_is_the_stored_record db token utcnow principal :
  current_principal db token utcnow = Return principal →
  result_of (get_current_user db token utcnow) = Return principal ∧
  ∃ s d,
    token_claim token "sub" = Some (VStr s) ∧
    db !! s = Some d ∧
    username principal = d_username d ∧
    disabled principal = d_disabled d ∧
    hashed_password principal = d_hashed_password d.
Proof.
  unfold current_principal, get_current_active_user.
  destruct (result_of (get_current_user db token utcnow)) as [u|e] eqn:Hr; [|done].
  rewrite bind_Return. intros [= <-]. split; [done|].
  apply accepts_iff in Hr as (claims & -> & _ & (s & Hsub & Hu) & _).
  unfold get_user in Hu. destruct (db !! s) as [d|] eqn:Hd; [|done].
  injection Hu as <-. by exists s, d.
Qed.

Lemma C9_witness :
  result_of (get_current_user (fake_users_db "salt") token_without_exp 0)
    = Return (admin_record "salt") ∧
  ∃ s d,
    token_claim token_without_exp "sub" = Some (VStr s) ∧
    fake_users_db "salt" !! s = Some d ∧
    username (admin_record "salt") = d_username d ∧
    disabled (admin_record "salt") = d_disabled d ∧
    hashed_password (admin_record "salt") = d_hashed_password d.
Proof.
  apply (C9_principal_is_the_stored_record (fake_users_db "salt")
           token_without_exp 0 (admin_record "salt")).
  by vm_compute.
Defined.



(** * Further properties of the code *)

(** ** Login and validation *)




Lemma get_user_keyed db uname user :
  keyed_by_username db → get_user db uname = Some user → username user = uname.
Proof.
  unfold get_user. intros Hk. destruct (db !! uname) as [d|] eqn:Hd; [|done].
  intros [= <-]. simpl. by eapply Hk.
Qed.

Lemma login_succeeds db uname password user utcnow :
  get_user db uname = Some user →
  verify_password password (hashed_password user) = Return true →
  login_for_access_token db uname password utcnow =
  Return {| access_token :=
              create_access_token {[ "sub" := VStr (username user) ]}
                (Some (timedelta_minutes ACCESS_TOKEN_EXPIRE_MINUTES)) utcnow;
            token_type := "bearer" |}.
Proof.
  intros Hu Hv. unfold login_for_access_token, authenticate_user.
  by rewrite Hu, Hv.
Qed.

Lemma issued_token_for_disabled_user db (s : string) u expires_delta utcnow now' :
  get_user db s = Some u →
  disabled u = Some true →
  timegm now' ≤ timegm (utcnow + lifetime expires_delta) →
  result_of (get_current_user db
               (create_access_token {[ "sub" := VStr s ]} expires_delta utcnow) now')
    = Raise inactive_user_exception.
Proof.
  intros Hu Hd Hle. rewrite get_current_user_result, create_access_token_issued.
  assert (result_of (jwt_decode
            (JWS ALGORITHM (ClaimsObject (issued_claims s expires_delta utcnow))
               (Some SECRET_KEY)) SECRET_KEY [ALGORITHM] now')
          = Return (issued_claims s expires_delta utcnow)) as ->.
  { apply jwt_decode_Return. exists ALGORITHM. split_and!; try done.
    - by apply list_elem_of_singleton.
    - by apply issued_claims_ok. }
  unfold lookup_principal. issued_lookup. by rewrite Hu, Hd.
Qed.

(** X3: the login endpoint does not look at the disabled flag. A disabled
    user with the right password is given a bearer token, and every use of
    that token during its lifetime is answered with 400 "Inactive user". *)
Theorem disabled_user_logs_in_and_is_refused db uname password user utcnow now' :
  keyed_by_username db →
  get_user db uname = Some user →
  verify_password password (hashed_password user) = Return true →
  disabled user = Some true →
  now' < utcnow + timedelta_minutes ACCESS_TOKEN_EXPIRE_MINUTES →
  ∃ response,
    login_for_access_token db uname password utcnow = Return response ∧
    token_type response = "bearer" ∧
    result_of (get_current_user db (access_token response) now')
      = Raise inactive_user_exception.
Proof.
  intros Hk Hu Hv Hd Hlt. eexists. split; [by apply login_succeeds|].
  split; [done|]. cbn [access_token].
  rewrite (get_user_keyed _ _ _ Hk Hu).
  apply (issued_token_for_disabled_user _ _ user); try done.
  apply timegm_mono. unfold lifetime. simpl. lia.
Qed.


Lemma disabled_table_keyed : keyed_by_username disabled_table.
Proof.
  intros k d. unfold disabled_table.
  destruct (decide (k = "eve")) as [->|?].
  - rewrite lookup_singleton_eq. by intros [= <-].
  - by rewrite lookup_singleton_ne.
Qed.

Lemma disabled_user_logs_in_and_is_refused_witness :
  ∃ response,
    login_for_access_token disabled_table "eve" "pw" 0 = Return response ∧
    token_type response = "bearer" ∧
    result_of (get_current_user disabled_table (access_token response) 5)
      = Raise inactive_user_exception.
Proof.
  apply (disabled_user_logs_in_and_is_refused disabled_table "eve" "pw"
           {| username := "eve"; hashed_password := pwd_context_hash "salt" "pw";
              disabled := Some true |} 0 5).
  - exact disabled_table_keyed.
  - by vm_compute.
  - by vm_compute.
  - reflexivity.
  - by vm_compute.
Defined.

(** X4: on any consistently keyed user table, the token a successful login
    returns for an enabled user is accepted for the whole configured
    lifetime, and validation hands back exactly the record the login
    authenticated. *)
Theorem login_token_is_accepted db uname password user utcnow now' :
  keyed_by_username db →
  get_user db uname = Some user →
  verify_password password (hashed_password user) = Return true →
  disabled user ≠ Some true →
  now' < utcnow + timedelta_minutes ACCESS_TOKEN_EXPIRE_MINUTES →
  ∃ response,
    login_for_access_token db uname password utcnow = Return response ∧
    token_type response = "bearer" ∧
    accepts db (access_token response) now' user.
Proof.
  intros Hk Hu Hv Hd Hlt. eexists. split; [by apply login_succeeds|].
  split; [done|]. cbn [access_token].
  rewrite (get_user_keyed _ _ _ Hk Hu).
  apply issued_token_accepts; try done.
  apply timegm_mono. unfold lifetime. simpl. lia.
Qed.

Lemma fake_users_db_keyed salt : keyed_by_username (fake_users_db salt).
Proof.
  intros k d. unfold fake_users_db.
  destruct (decide (k = "admin")) as [->|?].
  - rewrite lookup_singleton_eq. by intros [= <-].
  - by rewrite lookup_singleton_ne.
Qed.

Lemma login_token_is_accepted_witness :
  ∃ response,
    login_for_access_token (fake_users_db "salt") "admin" "secret123" 0
      = Return response ∧
    token_type response = "bearer" ∧
    accepts (fake_users_db "salt") (access_token response) 3599999999
      (admin_record "salt").
Proof.
  apply (login_token_is_accepted (fake_users_db "salt") "admin" "secret123"
           (admin_record "salt") 0 3599999999).
  - apply fake_users_db_keyed.
  - by vm_compute.
  - by vm_compute.
  - discriminate.
  - by vm_compute.
Defined.

(** X5: validation reads the user table as it is when the token is
    presented. A token that is accepted stops being accepted, without
    being touched, once its subject is removed from the table (generic
    401) or is stored with the disabled flag set (400). *)
Theorem validation_reads_the_current_table db token utcnow u s :
  accepts db token utcnow u →
  token_claim token "sub" = Some (VStr s) →
  result_of (get_current_user (delete s db) token utcnow)
    = Raise credentials_exception ∧
  (∀ d, d_disabled d = Some true →
        result_of (get_current_user (<[s := d]> db) token utcnow)
          = Raise inactive_user_exception).
Proof.
  intros (claims & -> & Hok & _ & _)%accepts_iff Hsub.
  change (claims !! "sub" = Some (VStr s)) in Hsub.
  assert (result_of (jwt_decode (JWS ALGORITHM (ClaimsObject claims) (Some SECRET_KEY))
                       SECRET_KEY [ALGORITHM] utcnow) = Return claims) as Hdec.
  { apply jwt_decode_Return. exists ALGORITHM. split_and!; try done.
    by apply list_elem_of_singleton. }
  split; [|intros d Hd]; rewrite get_current_user_result, Hdec;
    unfold lookup_principal, get_user; rewrite Hsub.
  - by rewrite lookup_delete_eq.
  - rewrite lookup_insert_eq. simpl. by rewrite Hd.
Qed.

Lemma validation_reads_the_current_table_witness :
  result_of (get_current_user (delete "admin" (fake_users_db "salt"))
               token_without_exp 0)
    = Raise credentials_exception ∧
  (∀ d, d_disabled d = Some true →
        result_of (get_current_user (<["admin" := d]> (fake_users_db "salt"))
                     token_without_exp 0)
          = Raise inactive_user_exception).
Proof.
  apply (validation_reads_the_current_table (fake_users_db "salt")
           token_without_exp 0 (admin_record "salt") "admin").
  - by vm_compute.
  - by vm_compute.
Defined.

(** X6: a token whose signature is not the one the service key produces,
    or whose header names an algorithm other than the configured one, is
    answered with the generic 401, whatever its payload says. *)
Theorem foreign_key_or_algorithm_is_rejected db alg body signed_with utcnow :
  signed_with ≠ Some SECRET_KEY ∨ alg ≠ ALGORITHM →
  result_of (get_current_user db (JWS alg body signed_with) utcnow)
    = Raise credentials_exception.
Proof.
  intros Hbad. rewrite get_current_user_result.
  destruct (result_of (jwt_decode _ _ _ _)) as [claims|e] eqn:Hd; [|done].
  apply jwt_decode_Return in Hd as (alg' & [= <- -> ->] & _ & Halg & _).
  apply list_elem_of_singleton in Halg. by destruct Hbad.
Qed.

Lemma foreign_key_or_algorithm_is_rejected_witness :
  result_of (get_current_user (fake_users_db "salt")
               (JWS "none" (ClaimsObject {[ "sub" := VStr "admin" ]}) None) 0)
    = Raise credentials_exception.
Proof.
  apply foreign_key_or_algorithm_is_rejected. left. discriminate.
Defined.



(** X8: a negative time-to-live is honoured as it stands: a token issued
    with a time-to-live of minus one second or less is already expired at
    every time from its issuance on. *)
Theorem negative_ttl_token_is_born_expired db s ttl utcnow now' :
  ttl ≤ -1000000 →
  utcnow ≤ now' →
  get_current_user db
    (create_access_token {[ "sub" := VStr s ]} (Some ttl) utcnow) now' =
  ([Passed VerifySignature; Passed DecodePayload; Passed ValidateIat;
    Passed ValidateNbf; Failed ValidateExp (JWTError ExpiredSignatureError)],
   Raise credentials_exception).
Proof.
  intros Httl Hle.
  assert (lifetime (Some ttl) = ttl) as Hlife.
  { unfold lifetime, timedelta_truthy.
    rewrite (proj2 (Z.eqb_neq ttl 0)) by lia. done. }
  rewrite create_access_token_issued.
  eapply expired_token_run; try by issued_lookup.
  rewrite Hlife. unfold timegm.
  apply Z.div_lt_upper_bound; [lia|].
  pose proof (Z.div_mod now' 1000000 ltac:(lia)).
  pose proof (Z.mod_pos_bound now' 1000000 ltac:(lia)).
  lia.
Qed.

Lemma negative_ttl_token_is_born_expired_witness :
  get_current_user (fake_users_db "salt")
    (create_access_token {[ "sub" := VStr "admin" ]} (Some (-1000000)) 5000000)
    5000000 =
  ([Passed VerifySignature; Passed DecodePayload; Passed ValidateIat;
    Passed ValidateNbf; Failed ValidateExp (JWTError ExpiredSignatureError)],
   Raise credentials_exception).
Proof.
  apply negative_ttl_token_is_born_expired; by vm_compute.
Defined.

(** ** The bearer scheme and the protected endpoints *)


(** ** The employees collection *)

Lemma find_one_cons employee_id d coll :
  find_one employee_id (d :: coll) =
  if decide (doc_employee_id d = employee_id) then Some d
  else find_one employee_id coll.
Proof. unfold find_one. rewrite filter_cons. by case_decide. Qed.

Lemma find_one_None employee_id coll :
  find_one employee_id coll = None ↔ employee_id ∉ employee_ids coll.
Proof.
  unfold employee_ids. induction coll as [|d coll IH].
  - split; [intros _; apply not_elem_of_nil|done].
  - rewrite find_one_cons, fmap_cons, not_elem_of_cons.
    case_decide; [naive_solver|]. rewrite IH. naive_solver.
Qed.

Lemma find_one_Some employee_id coll d :
  find_one employee_id coll = Some d → d ∈ coll ∧ doc_employee_id d = employee_id.
Proof.
  induction coll as [|d' coll IH]; [done|].
  rewrite find_one_cons. case_decide.
  - intros [= <-]. split; [by left|done].
  - intros [? ?]%IH. split; [by right|done].
Qed.

Lemma find_one_unique employee_id coll d :
  NoDup (employee_ids coll) → d ∈ coll → doc_employee_id d = employee_id →
  find_one employee_id coll = Some d.
Proof.
  unfold employee_ids. induction coll as [|d' coll IH]; [by intros _ ?%elem_of_nil|].
  rewrite fmap_cons, NoDup_cons, find_one_cons. intros [Hnotin Hnd] Hin Hid.
  apply elem_of_cons in Hin as [->|Hin]; [by rewrite decide_True|].
  rewrite decide_False; [by apply IH|].
  intros Heq. apply Hnotin. rewrite Heq, <-Hid. by apply list_elem_of_fmap_2.
Qed.

Lemma find_one_app_fresh employee_id coll d :
  find_one employee_id (coll ++ [d]) =
  match find_one employee_id coll with
  | Some d' => Some d'
  | None => if decide (doc_employee_id d = employee_id) then Some d else None
  end.
Proof.
  induction coll as [|d' coll IH]; simpl.
  - rewrite find_one_cons. by case_decide.
  - rewrite !find_one_cons.
    destruct (decide (doc_employee_id d' = employee_id)); [done|apply IH].
Qed.

Lemma apply_set_employee_id s d : doc_employee_id (apply_set s d) = doc_employee_id d.
Proof. done. Qed.

Lemma update_one_cons employee_id s d coll :
  update_one employee_id s (d :: coll) =
  if decide (doc_employee_id d = employee_id) then (1%nat, apply_set s d :: coll)
  else ((update_one employee_id s coll).1, d :: (update_one employee_id s coll).2).
Proof. simpl. case_decide; [done|]. by destruct (update_one employee_id s coll). Qed.

Lemma delete_one_cons employee_id d coll :
  delete_one employee_id (d :: coll) =
  if decide (doc_employee_id d = employee_id) then (1%nat, coll)
  else ((delete_one employee_id coll).1, d :: (delete_one employee_id coll).2).
Proof. simpl. case_decide; [done|]. by destruct (delete_one employee_id coll). Qed.

Lemma update_one_ids employee_id s coll :
  employee_ids (update_one employee_id s coll).2 = employee_ids coll.
Proof.
  unfold employee_ids. induction coll as [|d coll IH]; [done|].
  rewrite update_one_cons. case_decide; [done|].
  cbn [snd]. by rewrite !fmap_cons, IH.
Qed.

Lemma update_one_unmatched employee_id s coll :
  (update_one employee_id s coll).1 = 0%nat ↔ employee_id ∉ employee_ids coll.
Proof.
  unfold employee_ids. induction coll as [|d coll IH].
  - split; [intros _; apply not_elem_of_nil|done].
  - rewrite update_one_cons, fmap_cons, not_elem_of_cons.
    case_decide; cbn [fst]; [naive_solver|]. rewrite IH. naive_solver.
Qed.

Lemma update_one_absent employee_id s coll :
  employee_id ∉ employee_ids coll → (update_one employee_id s coll).2 = coll.
Proof.
  unfold employee_ids. induction coll as [|d coll IH]; [done|].
  rewrite update_one_cons, fmap_cons, not_elem_of_cons. intros [Hne Hnotin].
  rewrite decide_False by done. cbn [snd]. by rewrite IH.
Qed.

Lemma find_one_update_one employee_id s coll employee_id' :
  find_one employee_id' (update_one employee_id s coll).2 =
  if decide (employee_id' = employee_id) then apply_set s <$> find_one employee_id coll
  else find_one employee_id' coll.
Proof.
  induction coll as [|d coll IH]; [by case_decide|].
  rewrite update_one_cons.
  destruct (decide (doc_employee_id d = employee_id)) as [Hd|Hd]; cbn [snd].
  - rewrite !find_one_cons, apply_set_employee_id.
    destruct (decide (employee_id' = employee_id)) as [->|Hne].
    + by rewrite !decide_True.
    + by rewrite !decide_False by congruence.
  - rewrite !find_one_cons, IH.
    destruct (decide (employee_id' = employee_id)) as [->|Hne].
    + by rewrite !decide_False.
    + done.
Qed.

Lemma update_one_doc_ids employee_id s coll :
  doc_id <$> (update_one employee_id s coll).2 = doc_id <$> coll.
Proof.
  induction coll as [|d coll IH]; [done|].
  rewrite update_one_cons. case_decide; [done|].
  cbn [snd]. by rewrite !fmap_cons, IH.
Qed.

Lemma delete_one_undeleted employee_id coll :
  (delete_one employee_id coll).1 = 0%nat ↔ employee_id ∉ employee_ids coll.
Proof.
  unfold employee_ids. induction coll as [|d coll IH].
  - split; [intros _; apply not_elem_of_nil|done].
  - rewrite delete_one_cons, fmap_cons, not_elem_of_cons.
    case_decide; cbn [fst]; [naive_solver|]. rewrite IH. naive_solver.
Qed.

Lemma delete_one_absent employee_id coll :
  employee_id ∉ employee_ids coll → (delete_one employee_id coll).2 = coll.
Proof.
  unfold employee_ids. induction coll as [|d coll IH]; [done|].
  rewrite delete_one_cons, fmap_cons, not_elem_of_cons. intros [Hne Hnotin].
  rewrite decide_False by done. cbn [snd]. by rewrite IH.
Qed.


Lemma delete_one_length employee_id coll :
  (length (delete_one employee_id coll).2 + (delete_one employee_id coll).1
   = length coll)%nat.
Proof.
  induction coll as [|d coll IH]; [done|].
  rewrite delete_one_cons. case_decide; cbn [fst snd length]; lia.
Qed.

Lemma find_one_delete_one_ne employee_id coll employee_id' :
  employee_id' ≠ employee_id →
  find_one employee_id' (delete_one employee_id coll).2 = find_one employee_id' coll.
Proof.
  intros Hne. induction coll as [|d coll IH]; [done|].
  rewrite delete_one_cons.
  destruct (decide (doc_employee_id d = employee_id)) as [Hd|Hd]; cbn [snd].
  - rewrite find_one_cons. by rewrite decide_False by congruence.
  - by rewrite !find_one_cons, IH.
Qed.

Lemma find_one_delete_one_eq employee_id coll :
  NoDup (employee_ids coll) →
  find_one employee_id (delete_one employee_id coll).2 = None.
Proof.
  unfold employee_ids. induction coll as [|d coll IH]; [done|].
  rewrite delete_one_cons, fmap_cons, NoDup_cons. intros [Hnotin Hnd].
  destruct (decide (doc_employee_id d = employee_id)) as [Hd|Hd]; cbn [snd].
  - apply find_one_None. by rewrite <-Hd.
  - rewrite find_one_cons, decide_False by done. by apply IH.
Qed.

(** ** Creating, reading, updating and deleting employees *)

(** X10: creating an employee under an id that is not yet in the
    collection succeeds and adds exactly one document; reading that id
    back returns the submitted fields, the joining date as its ISO string,
    under the [_id] the store assigned; every other id reads as before. *)
Theorem create_then_get employee new_id current_user coll :
  ec_employee_id employee ∉ employee_ids coll →
  (create_employee employee new_id current_user coll).1
    = Return "Employee created successfully" ∧
  get_employee (ec_employee_id employee)
    (create_employee employee new_id current_user coll).2
    = Return {| out_id := new_id;
                out_employee_id := ec_employee_id employee;
                out_name := ec_name employee;
                out_department := ec_department employee;
                out_salary := ec_salary employee;
                out_joining_date := str_date (ec_joining_date employee);
                out_skills := ec_skills employee |} ∧
  (∀ employee_id, employee_id ≠ ec_employee_id employee →
     get_employee employee_id (create_employee employee new_id current_user coll).2
       = get_employee employee_id coll) ∧
  length (create_employee employee new_id current_user coll).2 = S (length coll).
Proof.
  intros Hfresh%find_one_None. unfold create_employee, get_employee, insert_one.
  rewrite Hfresh. cbn [fst snd]. split_and!.
  - done.
  - rewrite find_one_app_fresh, Hfresh. cbn [doc_employee_id].
    by rewrite decide_True.
  - intros employee_id Hne. rewrite find_one_app_fresh.
    destruct (find_one employee_id coll); [done|].
    cbn [doc_employee_id]. by rewrite decide_False.
  - rewrite length_app. simpl. lia.
Qed.

Lemma create_then_get_witness :
  (create_employee john_doe "65a0" (admin_record "salt") []).1
    = Return "Employee created successfully" ∧
  get_employee "E123" (create_employee john_doe "65a0" (admin_record "salt") []).2
    = Return {| out_id := "65a0"; out_employee_id := "E123";
                out_name := "John Doe"; out_department := "Engineering";
                out_salary := 75000%float; out_joining_date := "2023-01-15";
                out_skills := ["Python"; "MongoDB"; "APIs"] |} ∧
  (∀ employee_id, employee_id ≠ "E123" →
     get_employee employee_id
       (create_employee john_doe "65a0" (admin_record "salt") []).2
       = get_employee employee_id []) ∧
  length (create_employee john_doe "65a0" (admin_record "salt") []).2 = 1%nat.
Proof.
  apply (create_then_get john_doe "65a0" (admin_record "salt") []).
  apply not_elem_of_nil.
Defined.

(** X11: an id that is already in the collection cannot be created again:
    the answer is 400 "Employee ID already exists" and the collection is
    left as it was. In particular a second creation under the id of a
    successful first one is refused, whatever its other fields. *)
Theorem create_employee_refuses_duplicate employee new_id current_user coll :
  (ec_employee_id employee ∈ employee_ids coll →
   create_employee employee new_id current_user coll
     = (Raise (HTTPException 400 "Employee ID already exists" []), coll)) ∧
  (∀ employee' new_id' current_user',
     ec_employee_id employee ∉ employee_ids coll →
     ec_employee_id employee' = ec_employee_id employee →
     create_employee employee' new_id' current_user'
       (create_employee employee new_id current_user coll).2
     = (Raise (HTTPException 400 "Employee ID already exists" []),
        (create_employee employee new_id current_user coll).2)).
Proof.
  assert (∀ e i u c, ec_employee_id e ∈ employee_ids c →
            create_employee e i u c
            = (Raise (HTTPException 400 "Employee ID already exists" []), c)) as Hdup.
  { intros e i u c Hin. unfold create_employee.
    destruct (find_one (ec_employee_id e) c) eqn:Hf; [done|].
    by apply find_one_None in Hf. }
  split; [apply Hdup|].
  intros employee' new_id' current_user' Hfresh Hsame. apply Hdup.
  apply find_one_None in Hfresh. unfold create_employee. rewrite Hfresh.
  cbn [snd]. unfold insert_one, employee_ids. rewrite fmap_app, Hsame.
  apply elem_of_app. right. by left.
Qed.

Lemma create_employee_refuses_duplicate_witness :
  create_employee john_doe "65a1" (admin_record "salt")
    (create_employee john_doe "65a0" (admin_record "salt") []).2
  = (Raise (HTTPException 400 "Employee ID already exists" []),
     (create_employee john_doe "65a0" (admin_record "salt") []).2).
Proof.
  apply (proj2 (create_employee_refuses_duplicate john_doe "65a0"
                  (admin_record "salt") [])).
  - apply not_elem_of_nil.
  - reflexivity.
Defined.



(** X13: a successful update rewrites, in the first document with the given
    employee id, exactly the fields the request supplied (the joining date
    as its ISO string) and nothing else: the employee ids and the [_id]s of
    the collection stay as they were, and every other id reads as
    before. *)
Theorem update_employee_changes_only_supplied_fields
    employee_id update_data current_user coll message coll' :
  update_employee employee_id update_data current_user coll = (Return message, coll') →
  ∃ d,
    find_one employee_id coll = Some d ∧
    get_employee employee_id coll'
      = Return {| out_id := doc_id d;
                  out_employee_id := employee_id;
                  out_name := default (doc_name d) (eu_name update_data);
                  out_department :=
                    default (doc_department d) (eu_department update_data);
                  out_salary := default (doc_salary d) (eu_salary update_data);
                  out_joining_date :=
                    default (doc_joining_date d)
                            (str_date <$> eu_joining_date update_data);
                  out_skills := default (doc_skills d) (eu_skills update_data) |} ∧
    employee_ids coll' = employee_ids coll ∧
    doc_id <$> coll' = doc_id <$> coll ∧
    (∀ other, other ≠ employee_id → get_employee other coll' = get_employee other coll).
Proof.
  unfold update_employee. destruct (update_dict_empty _); [done|].
  pose proof (update_one_unmatched employee_id (update_dict_of update_data) coll) as Hm.
  pose proof (update_one_ids employee_id (update_dict_of update_data) coll) as Hids.
  pose proof (update_one_doc_ids employee_id (update_dict_of update_data) coll) as Hdoc.
  pose proof (find_one_update_one employee_id (update_dict_of update_data) coll) as Hf.
  destruct (update_one employee_id _ coll) as [matched_count c]. cbn [fst snd] in *.
  destruct (Nat.eqb_spec matched_count 0) as [->|Hne]; [done|].
  intros [= <- <-].
  destruct (find_one employee_id coll) as [d|] eqn:Hd.
  - exists d. split; [done|]. split_and!; try done.
    + unfold get_employee. rewrite Hf, decide_True by done.
      apply find_one_Some in Hd as [_ <-]. done.
    + intros other Hother. unfold get_employee. by rewrite Hf, decide_False.
  - apply find_one_None in Hd. apply Hm in Hd. done.
Qed.

Lemma update_employee_changes_only_supplied_fields_witness :
  ∃ d,
    find_one "E123" [john_doe_document] = Some d ∧
    get_employee "E123" [apply_set
                           {| set_name := None; set_department := Some "Research";
                              set_salary := None; set_joining_date := None;
                              set_skills := Some [] |} john_doe_document]
      = Return {| out_id := doc_id d;
                  out_employee_id := "E123";
                  out_name := default (doc_name d) None;
                  out_department := default (doc_department d) (Some "Research");
                  out_salary := default (doc_salary d) None;
                  out_joining_date := default (doc_joining_date d) (str_date <$> None);
                  out_skills := default (doc_skills d) (Some []) |} ∧
    employee_ids [apply_set
                    {| set_name := None; set_department := Some "Research";
                       set_salary := None; set_joining_date := None;
                       set_skills := Some [] |} john_doe_document]
      = employee_ids [john_doe_document] ∧
    doc_id <$> [apply_set
                  {| set_name := None; set_department := Some "Research";
                     set_salary := None; set_joining_date := None;
                     set_skills := Some [] |} john_doe_document]
      = doc_id <$> [john_doe_document] ∧
    (∀ other, other ≠ "E123" →
       get_employee other
         [apply_set
            {| set_name := None; set_department := Some "Research";
               set_salary := None; set_joining_date := None;
               set_skills := Some [] |} john_doe_document]
       = get_employee other [john_doe_document]).
Proof.
  apply (update_employee_changes_only_supplied_fields "E123"
           {| eu_name := None; eu_department := Some "Research"; eu_salary := None;
              eu_joining_date := None; eu_skills := Some [] |}
           (admin_record "salt") [john_doe_document]
           "Employee updated successfully").
  reflexivity.
Defined.

(** X14: an update request that supplies no field is answered with 400 "No
    fields to update" before the collection is consulted, so also for an id
    that does not exist; a request that supplies a field for an id that is
    not in the collection is answered with 404. Both leave the collection
    as it was. A supplied field counts even when its value is falsy: an
    empty skills list is written. *)
Theorem update_employee_errors employee_id update_data current_user coll :
  (update_dict_empty (update_dict_of update_data) = true →
   update_employee employee_id update_data current_user coll
     = (Raise (HTTPException 400 "No fields to update" []), coll)) ∧
  (update_dict_empty (update_dict_of update_data) = false →
   employee_id ∉ employee_ids coll →
   update_employee employee_id update_data current_user coll
     = (Raise employee_not_found, coll)) ∧
  (eu_skills update_data = Some [] →
   update_dict_empty (update_dict_of update_data) = false).
Proof.
  unfold update_employee. split_and!.
  - by intros ->.
  - intros -> Habsent.
    pose proof (update_one_absent employee_id (update_dict_of update_data) coll Habsent).
    pose proof (proj2 (update_one_unmatched employee_id
                         (update_dict_of update_data) coll) Habsent).
    destruct (update_one employee_id _ coll) as [matched_count c].
    cbn [fst snd] in *. by subst.
  - intros Hs. unfold update_dict_empty, update_dict_of. cbn. rewrite Hs.
    by repeat case_match.
Qed.

Lemma update_employee_errors_witness :
  update_employee "nobody"
    {| eu_name := None; eu_department := None; eu_salary := None;
       eu_joining_date := None; eu_skills := None |}
    (admin_record "salt") [john_doe_document]
    = (Raise (HTTPException 400 "No fields to update" []), [john_doe_document]) ∧
  update_employee "nobody"
    {| eu_name := None; eu_department := None; eu_salary := None;
       eu_joining_date := None; eu_skills := Some [] |}
    (admin_record "salt") [john_doe_document]
    = (Raise employee_not_found, [john_doe_document]).
Proof.
  split.
  - apply (proj1 (update_employee_errors "nobody" _ (admin_record "salt")
                    [john_doe_document])).
    reflexivity.
  - apply (proj1 (proj2 (update_employee_errors "nobody" _ (admin_record "salt")
                           [john_doe_document]))).
    + reflexivity.
    + apply (bool_decide_unpack _). by vm_compute.
Defined.

(** X15: deleting an id that is not in the collection is answered with 404
    and changes nothing. Deleting an id that is there succeeds and removes
    exactly one document; every other id reads as before, and when
    employee ids are unique the deleted id no longer reads. *)
Theorem delete_employee_outcomes employee_id current_user coll :
  (employee_id ∉ employee_ids coll →
   delete_employee employee_id current_user coll = (Raise employee_not_found, coll)) ∧
  (employee_id ∈ employee_ids coll →
   (delete_employee employee_id current_user coll).1
     = Return "Employee deleted successfully" ∧
   S (length (delete_employee employee_id current_user coll).2) = length coll ∧
   (∀ other, other ≠ employee_id →
      get_employee other (delete_employee employee_id current_user coll).2
        = get_employee other coll) ∧
   (NoDup (employee_ids coll) →
    get_employee employee_id (delete_employee employee_id current_user coll).2
      = Raise employee_not_found)).
Proof.
  unfold delete_employee, get_employee.
  pose proof (delete_one_undeleted employee_id coll) as Hu.
  pose proof (delete_one_length employee_id coll) as Hl.
  pose proof (find_one_delete_one_ne employee_id coll) as Hne.
  pose proof (find_one_delete_one_eq employee_id coll) as Heq.
  split.
  - intros Habsent. pose proof (delete_one_absent employee_id coll Habsent) as Ha.
    apply Hu in Habsent.
    destruct (delete_one employee_id coll) as [deleted_count c].
    cbn [fst snd] in *. by subst.
  - intros Hin.
    assert ((delete_one employee_id coll).1 ≠ 0%nat) as Hnz by (rewrite Hu; tauto).
    assert ((delete_one employee_id coll).1 = 1%nat) as Hone.
    { clear -Hnz. induction coll as [|d coll IH]; [done|].
      rewrite delete_one_cons in *. case_decide; [done|]. by apply IH. }
    destruct (delete_one employee_id coll) as [deleted_count c].
    cbn [fst snd] in *. subst deleted_count. cbn [Nat.eqb fst snd].
    split_and!; [done|lia| |].
    + intros other Hother. by rewrite Hne.
    + intros Hnd. by rewrite Heq.
Qed.

Lemma delete_employee_outcomes_witness :
  delete_employee "nobody" (admin_record "salt") [john_doe_document]
    = (Raise employee_not_found, [john_doe_document]) ∧
  (delete_employee "E123" (admin_record "salt") [john_doe_document]).1
    = Return "Employee deleted successfully" ∧
  get_employee "E123"
    (delete_employee "E123" (admin_record "salt") [john_doe_document]).2
    = Raise employee_not_found.
Proof.
  split_and!.
  - apply (proj1 (delete_employee_outcomes "nobody" (admin_record "salt")
                    [john_doe_document])).
    apply (bool_decide_unpack _). by vm_compute.
  - apply (proj2 (delete_employee_outcomes "E123" (admin_record "salt")
                    [john_doe_document])).
    apply (bool_decide_unpack _). by vm_compute.
  - apply (proj2 (delete_employee_outcomes "E123" (admin_record "salt")
                    [john_doe_document])).
    + apply (bool_decide_unpack _). by vm_compute.
    + apply NoDup_singleton.
Defined.

(** ** Sorting and paging *)

Lemma string_compare_lt_trans s1 s2 s3 :
  String.compare s1 s2 = Lt → String.compare s2 s3 = Lt → String.compare s1 s3 = Lt.
Proof.
  revert s2 s3. induction s1 as [|a s1 IH]; intros [|b s2] [|c s3]; cbn; try done.
  destruct (Ascii.compare a b) eqn:Hab; [| |done];
    destruct (Ascii.compare b c) eqn:Hbc; try done.
  - apply Ascii.compare_eq_iff in Hab as ->. rewrite Hbc. apply IH.
  - apply Ascii.compare_eq_iff in Hab as ->. by rewrite Hbc.
  - apply Ascii.compare_eq_iff in Hbc as <-. by rewrite Hab.
  - assert (Ascii.compare a c = Lt) as ->; [|done].
    unfold Ascii.compare in *. rewrite N.compare_lt_iff in *. lia.
Qed.

Lemma no_earlier_asym a b : String.ltb a b = true → no_earlier b a.
Proof.
  unfold no_earlier, String.ltb. rewrite (String.compare_antisym a b).
  by destruct (String.compare b a).
Qed.

Lemma no_earlier_trans a b c : no_earlier a b → no_earlier b c → no_earlier a c.
Proof.
  unfold no_earlier, String.ltb. intros Hab Hbc.
  destruct (String.compare a c) eqn:Hac; try done.
  destruct (String.compare a b) eqn:Hab'; try done.
  - apply String.compare_eq_iff in Hab' as ->. by rewrite Hac in Hbc.
  - rewrite String.compare_antisym in Hab'.
    destruct (String.compare b a) eqn:Hba; try done.
    by rewrite (string_compare_lt_trans b a c) in Hbc.
Qed.

Lemma insert_desc_perm d sorted : insert_desc d sorted ≡ₚ d :: sorted.
Proof.
  induction sorted as [|e rest IH]; [done|]. cbn.
  destruct (String.ltb _ _); [|done]. rewrite IH. apply Permutation_swap.
Qed.

Lemma sort_joining_date_desc_perm docs : sort_joining_date_desc docs ≡ₚ docs.
Proof.
  induction docs as [|d docs IH]; [done|].
  unfold sort_joining_date_desc in *. cbn [foldr]. by rewrite insert_desc_perm, IH.
Qed.

Lemma insert_desc_sorted d sorted :
  StronglySorted no_earlier (doc_joining_date <$> sorted) →
  StronglySorted no_earlier (doc_joining_date <$> insert_desc d sorted).
Proof.
  induction sorted as [|e rest IH]; intros Hs; cbn.
  - repeat constructor.
  - apply StronglySorted_cons in Hs as [Hall Hs].
    destruct (String.ltb (doc_joining_date d) (doc_joining_date e)) eqn:Hlt; cbn.
    + apply StronglySorted_cons. split; [|by apply IH].
      rewrite insert_desc_perm. cbn. constructor; [|done]. by apply no_earlier_asym.
    + apply StronglySorted_cons. split.
      * constructor; [done|]. eapply Forall_impl; [done|].
        intros x Hx. by apply (no_earlier_trans _ (doc_joining_date e)).
      * by apply StronglySorted_cons.
Qed.

Lemma sort_joining_date_desc_sorted docs :
  StronglySorted no_earlier (doc_joining_date <$> sort_joining_date_desc docs).
Proof.
  induction docs as [|d docs IH]; [constructor|].
  unfold sort_joining_date_desc in *. cbn [foldr]. by apply insert_desc_sorted.
Qed.

Lemma find_subseteq query coll : find query coll ⊆ coll.
Proof.
  destruct query as [department|]; cbn; [|done].
  intros d. rewrite list_elem_of_filter. tauto.
Qed.



(** X16: a page of [list_employees] holds at most [size] entries; each is
    the rendering of a document of the collection, and when a non-empty
    department is asked for, of a document of that department. An empty
    department string filters nothing: it lists what no department
    lists. *)
Theorem list_employees_page_contents department page size coll :
  (length (list_employees department page size coll) ≤ Pos.to_nat size)%nat ∧
  (∀ e, e ∈ list_employees department page size coll →
        ∃ d, d ∈ coll ∧ e = employee_helper d ∧
             ∀ dep, department = Some dep → dep ≠ "" → doc_department d = dep) ∧
  list_employees (Some "") page size coll = list_employees None page size coll.
Proof.
  split_and!; [| |done].
  - unfold list_employees. rewrite length_fmap, length_take. lia.
  - unfold list_employees. intros e (d & -> & Hd)%list_elem_of_fmap.
    apply subseteq_take, subseteq_drop in Hd.
    rewrite sort_joining_date_desc_perm in Hd.
    exists d. split; [by eapply find_subseteq|]. split; [done|].
    intros dep -> Hdep. destruct dep; [done|]. cbn in Hd.
    by apply list_elem_of_filter in Hd as [? _].
Qed.

Lemma list_employees_page_contents_witness :
  ∃ d, d ∈ [john_doe_document] ∧
       employee_helper john_doe_document = employee_helper d ∧
       ∀ dep, Some "Engineering" = Some dep → dep ≠ "" → doc_department d = dep.
Proof.
  apply (proj1 (proj2 (list_employees_page_contents
                         (Some "Engineering") 1 10 [john_doe_document]))).
  vm_compute. constructor.
Defined.


(** X17: within a page the entries are in descending order of the stored
    joining-date string: no entry sorts before a later one. *)
Theorem list_employees_page_is_descending department page size coll :
  StronglySorted no_earlier
    (out_joining_date <$> list_employees department page size coll).
Proof.
  unfold list_employees. rewrite <- list_fmap_compose.
  change (out_joining_date ∘ employee_helper) with doc_joining_date.
  pose proof (sort_joining_date_desc_sorted
                (find (if str_truthy department then department else None) coll)) as Hs.
  revert Hs. generalize (sort_joining_date_desc
    (find (if str_truthy department then department else None) coll)). intros l Hs.
  rewrite <- (take_drop ((Pos.to_nat page - 1) * Pos.to_nat size) l), fmap_app in Hs.
  apply StronglySorted_app_1_r in Hs.
  rewrite <- (take_drop (Pos.to_nat size) (drop _ l)), fmap_app in Hs.
  by apply StronglySorted_app_1_l in Hs.
Qed.



(** ** Routing *)

(** X19: no request is dispatched to [average_salary] or to
    [search_employees]: the paths [/employees/avg-salary] and
    [/employees/search] are taken by the earlier route
    [/employees/{employee_id}], so a GET of either runs [get_employee] with
    the last segment as the employee id and answers 404 unless an employee
    has that id. *)
Theorem later_employee_routes_are_shadowed method path params coll :
  dispatch method path ≠ Some (Ep_average_salary, params) ∧
  dispatch method path ≠ Some (Ep_search_employees, params) ∧
  dispatch GET ["employees"; "avg-salary"]
    = Some (Ep_get_employee, [("employee_id", "avg-salary")]) ∧
  dispatch GET ["employees"; "search"]
    = Some (Ep_get_employee, [("employee_id", "search")]) ∧
  ("avg-salary" ∉ employee_ids coll →
   get_employee "avg-salary" coll = Raise employee_not_found) ∧
  ("search" ∉ employee_ids coll →
   get_employee "search" coll = Raise employee_not_found).
Proof.
  assert (∀ ep, dispatch method path = Some (ep, params) →
                ep ≠ Ep_average_salary ∧ ep ≠ Ep_search_employees) as Hep.
  { intros ep. unfold dispatch, routes.
    destruct method, path as [|p [|q [|r path]]]; cbn;
      repeat (case_decide; simplify_eq/=); naive_solver. }
  split_and!; try done.
  - intros H. by destruct (Hep _ H).
  - intros H. by destruct (Hep _ H).
  - intros Habsent. unfold get_employee. by rewrite (proj2 (find_one_None _ _) Habsent).
  - intros Habsent. unfold get_employee. by rewrite (proj2 (find_one_None _ _) Habsent).
Qed.

Lemma later_employee_routes_are_shadowed_witness :
  get_employee "avg-salary" [john_doe_document] = Raise employee_not_found ∧
  get_employee "search" [john_doe_document] = Raise employee_not_found.
Proof.
  split.
  - apply (proj1 (proj2 (proj2 (proj2 (proj2
             (later_employee_routes_are_shadowed GET [] [] [john_doe_document])))))).
    apply (bool_decide_unpack _). by vm_compute.
  - apply (proj2 (proj2 (proj2 (proj2 (proj2
             (later_employee_routes_are_shadowed GET [] [] [john_doe_document])))))).
    apply (bool_decide_unpack _). by vm_compute.
Defined.


(** ** The stored form of a date *)

Lemma digit_compare m n :
  Ascii.compare (digit m) (digit n) = (m `mod` 10 ?= n `mod` 10)%nat.
Proof.
  unfold Ascii.compare, digit.
  rewrite <- (N2Nat.id (N_of_ascii _)),
          <- (N2Nat.id (N_of_ascii (ascii_of_nat (48 + n `mod` 10)))).
  rewrite <- Nat2N.inj_compare.
  change (N.to_nat (N_of_ascii ?a)) with (nat_of_ascii a).
  pose proof (Nat.mod_upper_bound m 10). pose proof (Nat.mod_upper_bound n 10).
  rewrite !nat_ascii_embedding by lia.
  destruct (Nat.compare_spec (m `mod` 10) (n `mod` 10));
    [rewrite Nat.compare_eq_iff | rewrite Nat.compare_lt_iff
     | rewrite Nat.compare_gt_iff]; lia.
Qed.

Lemma digits4 n :
  Z.of_nat n ≤ 9999 →
  n = (1000 * ((n / 1000) `mod` 10) + 100 * ((n / 100) `mod` 10)
       + 10 * ((n / 10) `mod` 10) + n `mod` 10)%nat.
Proof. intros. zify. Z.to_euclidean_division_equations. lia. Qed.

Lemma digits2 n :
  (n ≤ 99)%nat → n = (10 * ((n / 10) `mod` 10) + n `mod` 10)%nat.
Proof. intros. zify. Z.to_euclidean_division_equations. lia. Qed.

Lemma str_date_compare a b :
  date_in_range a → date_in_range b →
  (String.compare (str_date a) (str_date b) = Lt ↔ date_lt a b) ∧
  (String.compare (str_date a) (str_date b) = Eq ↔ a = b).
Proof.
  destruct a as [y m d], b as [y' m' d']. unfold date_in_range, date_lt.
  cbn [year month day]. intros (?&?&?) (?&?&?).
  unfold str_date. cbn [String.compare year month day]. rewrite !digit_compare.
  change (Ascii.compare "-" "-") with Eq. cbn match.
  assert (mkDate y m d = mkDate y' m' d' ↔ y = y' ∧ m = m' ∧ d = d') as ->
    by naive_solver.
  pose proof (digits4 y). pose proof (digits4 y').
  pose proof (digits2 m). pose proof (digits2 m').
  pose proof (digits2 d). pose proof (digits2 d').
  repeat match goal with
    | |- context [(?x `mod` 10 ?= _)%nat] =>
        pose proof (Nat.mod_upper_bound x 10);
        generalize dependent (x `mod` 10)%nat; intros
    | |- context [(_ ?= ?x `mod` 10)%nat] =>
        pose proof (Nat.mod_upper_bound x 10);
        generalize dependent (x `mod` 10)%nat; intros
    end.
  repeat match goal with
    | |- context [(?x ?= ?y)%nat] => destruct (Nat.compare_spec x y)
    end; (split; split; intros; try done; lia).
Qed.

(** X20: on the values a date can take, the string [create_employee] and
    [update_employee] store for a joining date orders as the date does and
    determines it: comparing two stored strings compares the two dates, so
    the descending sort of [list_employees] on the string is the reverse
    chronological order. *)
Theorem str_date_orders_as_the_date a b :
  date_in_range a → date_in_range b →
  (String.ltb (str_date a) (str_date b) = true ↔ date_lt a b) ∧
  (no_earlier (str_date a) (str_date b) ↔ ¬ date_lt a b) ∧
  (str_date a = str_date b ↔ a = b).
Proof.
  intros Ha Hb. destruct (str_date_compare a b Ha Hb) as [Hlt Heq].
  unfold no_earlier, String.ltb. rewrite <- Hlt.
  split_and!.
  - by destruct (String.compare _ _).
  - by destruct (String.compare _ _).
  - split; [|by intros ->].
    intros Hs. apply Heq. rewrite Hs.
    pose proof (String.compare_antisym (str_date b) (str_date b)) as Hrefl.
    by destruct (String.compare (str_date b) (str_date b)).
Qed.

Lemma str_date_orders_as_the_date_witness :
  (String.ltb (str_date (ec_joining_date john_doe))
              (str_date {| year := 2023; month := 2; day := 1 |}) = true
   ↔ date_lt (ec_joining_date john_doe) {| year := 2023; month := 2; day := 1 |}) ∧
  (no_earlier (str_date (ec_joining_date john_doe))
              (str_date {| year := 2023; month := 2; day := 1 |})
   ↔ ¬ date_lt (ec_joining_date john_doe) {| year := 2023; month := 2; day := 1 |}) ∧
  (str_date (ec_joining_date john_doe)
     = str_date {| year := 2023; month := 2; day := 1 |}
   ↔ ec_joining_date john_doe = {| year := 2023; month := 2; day := 1 |}).
Proof.
  apply (str_date_orders_as_the_date (ec_joining_date john_doe)
           {| year := 2023; month := 2; day := 1 |}).
  - unfold date_in_range. cbn. lia.
  - unfold date_in_range. cbn. lia.
Defined.
